(** * Read-model repositories of eventhorizon: the version middleware
      (repo/version/repo.go) and the MongoDB read repository
      (storage/mongodb/readrepository.go).

    The Go code is embedded shallowly.  Interface values are [option]s
    ([None] is Go's nil), Go's [int] and [time.Duration] are [Z] (only compared,
    never computed with), and the calls that leave the function under study
    (the wrapped repository's Find, the [select] on the timer and on
    [ctx.Done()]) are transitions of an abstract world, recorded in a trace. *)

From Stdlib Require Import ZArith List Bool Lia.
From stdpp Require Import base option list strings gmap.

Local Open Scope Z_scope.

Set Warnings "-register-all".

(** ** Values shared by the two packages *)

(** [eventhorizon.UUID] is a string type. *)
Definition UUID : Type := string.

(** A read model as the repositories see it: an [interface{}] whose dynamic
    type either has the method [AggregateVersion() int] (it implements
    [eh.Versionable]) or has not. *)
Inductive Model : Type :=
| VersionedModel (payload : string) (version : Z)
| PlainModel (payload : string).

(** The [eh.Versionable] view of a model. *)
Record Versionable : Type := mkVersionable { AggregateVersion : Z }.

(** The type assertion [model.(eh.Versionable)]: it fails on nil and on a
    dynamic type without the method. *)
Definition as_Versionable (model : option Model) : option Versionable :=
  match model with
  | Some (VersionedModel _ v) => Some (mkVersionable v)
  | Some (PlainModel _) => None
  | None => None
  end.

(** Why a context is done: the two values [ctx.Err()] can take once
    [ctx.Done()] is closed. *)
Inductive DoneReason : Type := Canceled | DeadlineExceeded.

(** Go [error] values.  The sentinels are the package-level [errors.New]
    values, which Go compares by identity; [RepoError] is the struct
    [eh.RepoError] with the two fields the code sets, its [Err] being again
    an [error] interface value. *)
Inductive error : Type :=
| ErrModelNotFound
| ErrIncorrectModelVersion
| ErrModelHasNoVersion
| ErrCouldNotSaveModel
| ErrModelNotSet
| ErrContext (why : DoneReason)
| ErrOther (msg : string)
| RepoError (Err : option error) (Namespace : string).

(** What a Find returns: [(interface{}, error)]. *)
Definition FindResult : Type := (option Model * option error)%type.

(** ** The context *)

(** Modelled from the spec: the [context.Context] carrying the "ambient,
    per-call" minimum-version requirement, the namespace and the deadline; the
    package [eh] with [MinVersionFromContext] and [NamespaceFromContext] is
    not part of the sources at hand. *)
Record Context : Type := mkContext {
  ctx_minVersion : option Z;
  ctx_namespace : string;
  ctx_deadline : option Z
}.

(** Modelled from the spec: [eh.MinVersionFromContext(ctx)], the requirement
    and whether there is one ("absence means any version is acceptable"). *)
Definition MinVersionFromContext (ctx : Context) : Z * bool :=
  match ctx_minVersion ctx with
  | Some v => (v, true)
  | None => (0, false)
  end.

(** Modelled from the spec: [eh.NamespaceFromContext(ctx)]. *)
Definition NamespaceFromContext (ctx : Context) : string := ctx_namespace ctx.

(** [ctx.Deadline()]: the deadline and whether one is set. *)
Definition Deadline (ctx : Context) : Z * bool :=
  match ctx_deadline ctx with
  | Some t => (t, true)
  | None => (0, false)
  end.

(** ** Effects *)

(** The calls of [Repo.Find] that reach outside it. *)
Inductive Event : Type :=
| EvFind (id : UUID)
| EvSelect (d : Z).

(** The branch a [select] over [time.After(d)] and [ctx.Done()] takes. *)
Inductive SelectCase : Type :=
| CaseTimeAfter
| CaseCtxDone (why : DoneReason).

(** How a pass through the body of a [for] loop ends: at its end (the loop
    goes round again), by [break], or by [return]. *)
Inductive Flow (R : Type) : Type :=
| Next
| Break
| Return (r : R).
Arguments Next {R}.
Arguments Break {R}.
Arguments Return {R} r.

(** The state of [backoff.Backoff]: the number of durations handed out. *)
Record Backoff : Type := mkBackoff { attempt : nat }.

Definition isEvFind (e : Event) : bool :=
  match e with EvFind _ => true | EvSelect _ => false end.

(** Number of calls made to the wrapped repository's Find in a trace. *)
Definition findCalls (tr : list Event) : nat :=
  length (List.filter isEvFind tr).

Module Version.

(** What a call of [Find] meets outside the middleware: a world holding the
    wrapped repository (with whatever writes to it meanwhile), the clock and
    the context's cancellation; the wrapped [eh.ReadWriteRepo] with its Find;
    the [select] statement, that is which of [time.After(d)] and [ctx.Done()]
    comes first; and [ForAttempt] of [backoff.Backoff], the duration of the
    n-th wait. *)
Class Env : Type := mkEnv {
  World : Type;
  ReadWriteRepo_Find : Context -> UUID -> World -> FindResult * World;
  select_After_Done : Context -> Z -> World -> SelectCase * World;
  ForAttempt : nat -> Z
}.

Section Gate.

Context {env : Env}.

(** The state threaded through [Find]: the world and the trace so far. *)
Record State : Type := mkState { world : World; trace : list Event }.

(** Computations with effects on the state. *)
Definition Eff (A : Type) : Type := State -> A * State.

Definition ret {A} (a : A) : Eff A := fun s => (a, s).

Definition bind {A B} (m : Eff A) (k : A -> Eff B) : Eff B :=
  fun s => let (a, s') := m s in k a s'.

Notation "'let*' p := m 'in' k" := (bind m (fun p => k))
  (at level 10, p pattern, m at level 200, k at level 200).

(** The call to the wrapped repository, traced. *)
Definition call_Find (ctx : Context) (id : UUID) : Eff FindResult :=
  fun s =>
    let (res, w') := ReadWriteRepo_Find ctx id (world s) in
    (res, mkState w' (trace s ++ [EvFind id])).

(** The [select], traced. *)
Definition call_select (ctx : Context) (d : Z) : Eff SelectCase :=
  fun s =>
    let (c, w') := select_After_Done ctx d (world s) in
    (c, mkState w' (trace s ++ [EvSelect d])).

(** [ctx.Err()] once [ctx.Done()] is closed. *)
Definition ctx_Err (why : DoneReason) : option error := Some (ErrContext why).

(** [delay.Duration()]: the duration for the current attempt; the counter
    moves on. *)
Definition Duration (b : Backoff) : Z * Backoff :=
  (ForAttempt (attempt b), mkBackoff (S (attempt b))).

(** findMinVersion (repo.go:91-113). *)
Definition findMinVersion (ctx : Context) (id : UUID) (minVersion : Z)
  : Eff FindResult :=
  let* (model, err) := call_Find ctx id in
  match err with
  | Some e => ret (None, Some e)
  | None =>
      match as_Versionable model with
      | None =>
          ret (None, Some (RepoError (Some ErrModelHasNoVersion)
                                     (NamespaceFromContext ctx)))
      | Some versionable =>
          if AggregateVersion versionable <? minVersion
          then ret (None, Some (RepoError (Some ErrIncorrectModelVersion)
                                          (NamespaceFromContext ctx)))
          else ret (model, None)
      end
  end.

(** The condition of the first [if] of the loop (repo.go:60-61):
    [err.(eh.RepoError)] succeeds and the [Err] inside is one of the two
    sentinels. *)
Definition isRetry (err : option error) : bool :=
  match err with
  | Some (RepoError (Some ErrIncorrectModelVersion) _) => true
  | Some (RepoError (Some ErrModelNotFound) _) => true
  | _ => false
  end.

(** One pass through the body of the loop (repo.go:59-80). *)
Definition Find_body (ctx : Context) (id : UUID) (minVersion : Z)
    (hasDeadline : bool) (delay : Backoff) : Eff (Flow FindResult * Backoff) :=
  let* (model, err) := findMinVersion ctx id minVersion in
  if isRetry err then
    if negb hasDeadline then ret (Return (model, err), delay)
    else
      let (d, delay') := Duration delay in
      let* c := call_select ctx d in
      match c with
      | CaseTimeAfter => ret (Next, delay')
      | CaseCtxDone why => ret (Return (None, ctx_Err why), delay')
      end
  else
    match err with
    | Some e => ret (Return (None, Some e), delay)
    | None => ret (Return (model, None), delay)
    end.

(** A [for { body }] loop followed by the statements [after], run for at most
    [fuel] passes; [None] when the fuel does not suffice. *)
Fixpoint for_loop {L R : Type} (fuel : nat) (body : L -> Eff (Flow R * L))
    (l : L) (after : Eff R) (s : State) : option (R * State) :=
  match fuel with
  | O => None
  | S fuel' =>
      match body l s with
      | (Next, l', s') => for_loop fuel' body l' after s'
      | (Break, _, s') => Some (after s')
      | (Return r, _, s') => Some (r, s')
      end
  end.

(** The loop of Find with the statement after it (repo.go:56-87), where the
    statement after the loop is a parameter. *)
Definition Find_loop (fuel : nat) (ctx : Context) (id : UUID) (minVersion : Z)
    (after : Eff FindResult) (s : State) : option (FindResult * State) :=
  let delay := mkBackoff 0 in
  let hasDeadline := snd (Deadline ctx) in
  for_loop fuel (Find_body ctx id minVersion hasDeadline) delay after s.

(** The return after the loop (repo.go:84-87). *)
Definition Find_fallback (ctx : Context) : Eff FindResult :=
  ret (None, Some (RepoError (Some ErrModelNotFound) (NamespaceFromContext ctx))).

(** Repo.Find (repo.go:47-88). *)
Definition Find (fuel : nat) (ctx : Context) (id : UUID) (s : State)
  : option (FindResult * State) :=
  let (minVersion, ok) := MinVersionFromContext ctx in
  if negb ok || (minVersion <? 1) then Some (call_Find ctx id s)
  else Find_loop fuel ctx id minVersion (Find_fallback ctx) s.

(** ** Conditions and states the statements speak of *)

(** The two failure conditions of the find-at-least step that the loop treats
    as "try again": a [RepoError] whose [Err] is the NotFound or the
    IncorrectVersion sentinel. *)
Definition retryCondition (err : option error) : Prop :=
  exists ns, err = Some (RepoError (Some ErrModelNotFound) ns)
          \/ err = Some (RepoError (Some ErrIncorrectModelVersion) ns).

(** A context that carries a minimum-version requirement [M >= 1]. *)
Definition requires (ctx : Context) (M : Z) : Prop :=
  ctx_minVersion ctx = Some M /\ 1 <= M.

(** A context without a requirement, or with one below 1. *)
Definition noRequirement (ctx : Context) : Prop :=
  match ctx_minVersion ctx with
  | None => True
  | Some v => v < 1
  end.

(** The state once the wrapped repository has answered a call made in [s]. *)
Definition afterFind (ctx : Context) (id : UUID) (s : State) : State :=
  mkState (snd (ReadWriteRepo_Find ctx id (world s))) (trace s ++ [EvFind id]).

(** The state once the [select] entered in [s] has taken a branch. *)
Definition afterSelect (ctx : Context) (d : Z) (s : State) : State :=
  mkState (snd (select_After_Done ctx d (world s))) (trace s ++ [EvSelect d]).

(** [Find] with the statement after its loop replaced by [after]: the loop
    and everything before it are those of [Find]. *)
Definition Find_with (after : Eff FindResult) (fuel : nat) (ctx : Context)
    (id : UUID) (s : State) : option (FindResult * State) :=
  let (minVersion, ok) := MinVersionFromContext ctx in
  if negb ok || (minVersion <? 1) then Some (call_Find ctx id s)
  else Find_loop fuel ctx id minVersion after s.

(** An answer of the wrapped repository that does not reach version [M]:
    the model is absent (the NotFound condition) or its version is below
    [M]. *)
Definition staleAnswer (M : Z) (r : FindResult) : Prop :=
  (exists model ns, r = (model, Some (RepoError (Some ErrModelNotFound) ns)))
  \/ (exists model vb, r = (model, None) /\ as_Versionable model = Some vb
                       /\ AggregateVersion vb < M).

(** The events of [n] passes of the loop that end with the timer, the first
    of them waiting for [ForAttempt a]: each a call for [id], then the
    wait. *)
Fixpoint schedule (id : UUID) (a n : nat) : list Event :=
  match n with
  | O => []
  | S n' => EvFind id :: EvSelect (ForAttempt a) :: schedule id (S a) n'
  end.

(** The state [n] such passes after [s]. *)
Fixpoint passState (ctx : Context) (id : UUID) (a n : nat) (s : State) : State :=
  match n with
  | O => s
  | S n' =>
      passState ctx id (S a) n'
                (afterSelect ctx (ForAttempt a) (afterFind ctx id s))
  end.

End Gate.

(** ** The chain walker *)

(** An [eh.ReadRepo] interface value: nil, a pointer to a [Repo] of this package, or a
    value of any other type implementing the interface, whose [Parent()]
    returns [parent] (nil for a concrete store).  [Repo] is the struct with
    its embedded [eh.ReadWriteRepo].  Being inductive, a chain is finite and
    has no cycle. *)
Inductive ReadRepo : Type :=
| nilRepo
| ptrRepo (r : Repo)
| otherRepo (name : string) (parent : ReadRepo)
with Repo : Type :=
| mkRepo (ReadWriteRepo : ReadRepo).

(** The embedded field of [Repo]. *)
Definition ReadWriteRepo (r : Repo) : ReadRepo :=
  match r with mkRepo inner => inner end.

(** NewRepo (repo.go:31-35). *)
Definition NewRepo (repo : ReadRepo) : Repo := mkRepo repo.

(** (r *Repo) Parent (repo.go:38-40). *)
Definition Repo_Parent (r : Repo) : ReadRepo := ReadWriteRepo r.

(** The method call [repo.Parent()] on a non-nil interface value. *)
Definition Parent (repo : ReadRepo) : ReadRepo :=
  match repo with
  | nilRepo => nilRepo
  | ptrRepo r => Repo_Parent r
  | otherRepo _ parent => parent
  end.

(** Repository (repo.go:116-126); the recursive call is on [repo.Parent()]. *)
Fixpoint Repository (repo : ReadRepo) : option Repo :=
  match repo with
  | nilRepo => None
  | ptrRepo r => Some r
  | otherRepo _ parent => Repository parent
  end.

(** The repositories of a chain from the given one inward, by [Parent]
    links, down to the root. *)
Fixpoint chain (repo : ReadRepo) : list ReadRepo :=
  match repo with
  | nilRepo => []
  | ptrRepo (mkRepo inner) => repo :: chain inner
  | otherRepo _ parent => repo :: chain parent
  end.

(** The type assertion of [repo] to a pointer to [Repo]. *)
Definition as_Repo (repo : ReadRepo) : option Repo :=
  match repo with
  | ptrRepo r => Some r
  | _ => None
  end.

(** What the specification asks of the walker, on the list of the chain: the
    first version repository met from the outside inward, if any. *)
Fixpoint nearestGate (layers : list ReadRepo) : option Repo :=
  match layers with
  | [] => None
  | layer :: inner =>
      match as_Repo layer with
      | Some r => Some r
      | None => nearestGate inner
      end
  end.

(** A stack of other decorators, outermost first, put around [repo]. *)
Definition decorate (names : list string) (repo : ReadRepo) : ReadRepo :=
  foldr otherRepo repo names.

End Version.

(** * A concrete world: a store that is written to while Find polls it *)

Module Scenario.

(** The clock (in milliseconds) and the wrapped repository as the sequence of
    its writes: from the time of an entry on, Find answers with that entry's
    result. *)
Record World : Type := mkWorld {
  now : Z;
  timeline : list (Z * FindResult)
}.

(** The answer of a store without the model: NotFound, as a [RepoError]. *)
Definition notFound : FindResult :=
  (None, Some (RepoError (Some ErrModelNotFound) "default")).

(** The answer in force at time [t]. *)
Fixpoint answerAt (t : Z) (writes : list (Z * FindResult))
    (current : FindResult) : FindResult :=
  match writes with
  | [] => current
  | (t0, r) :: later => if t0 <=? t then answerAt t later r else current
  end.

(** The wrapped repository's Find: it answers from the timeline and takes one
    millisecond. *)
Definition store_Find (ctx : Context) (id : UUID) (w : World)
  : FindResult * World :=
  (answerAt (now w) (timeline w) notFound, mkWorld (now w + 1) (timeline w)).

(** The [select]: the timer fires if it does so before the context's
    deadline; otherwise the context is done first, at the deadline. *)
Definition select_After_Done (ctx : Context) (d : Z) (w : World)
  : SelectCase * World :=
  match ctx_deadline ctx with
  | None => (CaseTimeAfter, mkWorld (now w + Z.max d 0) (timeline w))
  | Some deadline =>
      if now w + Z.max d 0 <? deadline
      then (CaseTimeAfter, mkWorld (now w + Z.max d 0) (timeline w))
      else (CaseCtxDone DeadlineExceeded,
            mkWorld (Z.max (now w) deadline) (timeline w))
  end.

(** The durations of a [backoff.Backoff] with its defaults: 100ms doubling up
    to 10s. *)
Definition ForAttempt (n : nat) : Z := Z.min (100 * 2 ^ Z.of_nat n) 10000.

(** This world as an environment of the middleware. *)
#[export] Instance env : Version.Env :=
  Version.mkEnv World store_Find select_After_Done ForAttempt.

Definition Find := Version.Find (env := env).

Definition start (w : World) : Version.State := Version.mkState w [].

(** The model is at version 2 and reaches version 3 after 20ms. *)
Definition growing : World :=
  mkWorld 0 [(0, (Some (VersionedModel "guest list" 2), None));
             (20, (Some (VersionedModel "guest list" 3), None))].

(** The model stays at version 2. *)
Definition stuck : World :=
  mkWorld 0 [(0, (Some (VersionedModel "guest list" 2), None))].

(** The store holds a model without version. *)
Definition unversioned : World :=
  mkWorld 0 [(0, (Some (PlainModel "guest list"), None))].

(** The store fails with an error of its own. *)
Definition failing : World :=
  mkWorld 0 [(0, (None, Some (ErrOther "connection reset")))].

Definition ctxPlain : Context := mkContext None "default" None.
Definition ctxMin (M : Z) : Context := mkContext (Some M) "default" None.
Definition ctxMinDeadline (M deadline : Z) : Context :=
  mkContext (Some M) "default" (Some deadline).

End Scenario.

(** * The MongoDB read repository (storage/mongodb/readrepository.go) *)

Module Mongodb.

(** Errors of the driver [mgo]: [mgo.ErrNotFound] and any other failure
    (connection, decoding, ...). *)
Inductive mgo_error : Type :=
| mgo_ErrNotFound
| mgo_failure (msg : string).

(** What a query sees through an [mgo.Session]: the documents of each
    collection of each database, keyed by id, and the failure, if any, that
    operations on the session meet. *)
Record Session : Type := mkSession {
  documents : gmap (string * string) (gmap UUID Model);
  failure : option string
}.

(** [session.Copy()]: a session on the same server. *)
Definition Session_Copy (sess : Session) : Session := sess.

(** The document with the given id in a collection. *)
Definition stored (sess : Session) (db collection : string) (id : UUID)
  : option Model :=
  documents sess !! (db, collection) ≫= (fun docs => docs !! id).

(** The text a model carries, whatever its type. *)
Definition payloadOf (m : Model) : string :=
  match m with
  | VersionedModel payload _ => payload
  | PlainModel payload => payload
  end.

(** Decoding a stored document into the object [target] that the factory
    made, as [One] and [Next] of the driver do through the pointer they are
    given: the object keeps its dynamic type and its fields are set from the
    document, a field the document lacks being left at its zero value. *)
Definition decode (doc target : Model) : Model :=
  match target with
  | VersionedModel _ _ =>
      VersionedModel (payloadOf doc)
                     (match doc with
                      | VersionedModel _ version => version
                      | PlainModel _ => 0
                      end)
  | PlainModel _ => PlainModel (payloadOf doc)
  end.

(** Whether two models have the same dynamic type. *)
Definition sameType (a b : Model) : bool :=
  match a, b with
  | VersionedModel _ _, VersionedModel _ _ => true
  | PlainModel _, PlainModel _ => true
  | _, _ => false
  end.

(** [sess.DB(db).C(collection).FindId(id).One(model)]: on success the
    document is decoded into the object [model]. *)
Definition FindId_One (sess : Session) (db collection : string) (id : UUID)
    (model : Model) : Model * option mgo_error :=
  match failure sess with
  | Some msg => (model, Some (mgo_failure msg))
  | None =>
      match stored sess db collection id with
      | Some doc => (decode doc model, None)
      | None => (model, Some mgo_ErrNotFound)
      end
  end.

(** The struct [ReadRepository]; [factory] is nil until [SetModel]. *)
Record ReadRepository : Type := mkReadRepository {
  session : Session;
  db : string;
  collection : string;
  factory : option (unit -> Model)
}.

(** SetModel (readrepository.go:158-160). *)
Definition SetModel (r : ReadRepository) (f : unit -> Model) : ReadRepository :=
  mkReadRepository (session r) (db r) (collection r) (Some f).

(** Find (readrepository.go:77-92). *)
Definition Find (r : ReadRepository) (id : UUID) : FindResult :=
  let sess := Session_Copy (session r) in
  match factory r with
  | None => (None, Some ErrModelNotSet)
  | Some f =>
      let model := f tt in
      let (model', err) := FindId_One sess (db r) (collection r) id model in
      match err with
      | Some _ => (None, Some ErrModelNotFound)
      | None => (Some model', None)
      end
  end.

(** The model stored for [id] in the repository's collection. *)
Definition storedModel (r : ReadRepository) (id : UUID) : option Model :=
  stored (session r) (db r) (collection r) id.

(** A repository with one guest list stored, on a session whose connection
    is broken. *)
Definition brokenSession : Session :=
  mkSession {[ ("demo", "guests") := {[ "id-1" := VersionedModel "guest list" 2 ]} ]}
            (Some "connection reset").

Definition brokenRepo : ReadRepository :=
  mkReadRepository brokenSession "demo" "guests"
                   (Some (fun _ => VersionedModel "" 0)).

(** The same repository on a working session. *)
Definition workingRepo : ReadRepository :=
  mkReadRepository (mkSession (documents brokenSession) None) "demo" "guests"
                   (Some (fun _ => VersionedModel "" 0)).

(** ** The other operations of the read repository *)

(** A driver error as the Go [error] value it is: [mgo.ErrNotFound] is
    [errors.New("not found")], any other failure carries its message. *)
Definition as_error (e : mgo_error) : error :=
  match e with
  | mgo_ErrNotFound => ErrOther "not found"
  | mgo_failure msg => ErrOther msg
  end.

(** The documents of a collection; none when the collection does not
    exist. *)
Definition docsOf (sess : Session) (db collection : string) : gmap UUID Model :=
  default ∅ (documents sess !! (db, collection)).

(** [sess.DB(db).C(collection).UpsertId(id, model)]: the document with the id
    is replaced, or inserted when there is none (the collection is created
    with its first document). *)
Definition UpsertId (sess : Session) (db collection : string) (id : UUID)
    (model : Model) : Session * option mgo_error :=
  match failure sess with
  | Some msg => (sess, Some (mgo_failure msg))
  | None =>
      (mkSession (<[(db, collection) := <[id := model]> (docsOf sess db collection)]>
                    (documents sess)) None,
       None)
  end.

(** [sess.DB(db).C(collection).RemoveId(id)]: [mgo.ErrNotFound] when no
    document has the id. *)
Definition RemoveId (sess : Session) (db collection : string) (id : UUID)
  : Session * option mgo_error :=
  match failure sess with
  | Some msg => (sess, Some (mgo_failure msg))
  | None =>
      match stored sess db collection id with
      | None => (sess, Some mgo_ErrNotFound)
      | Some _ =>
          (mkSession (<[(db, collection) := delete id (docsOf sess db collection)]>
                        (documents sess)) None,
           None)
      end
  end.

(** [session.DB(db).C(collection).DropCollection()]: the server refuses to
    drop a collection that does not exist. *)
Definition DropCollection (sess : Session) (db collection : string)
  : Session * option mgo_error :=
  match failure sess with
  | Some msg => (sess, Some (mgo_failure msg))
  | None =>
      match documents sess !! (db, collection) with
      | None => (sess, Some (mgo_failure "ns not found"))
      | Some _ => (mkSession (delete (db, collection) (documents sess)) None, None)
      end
  end.

(** An [mgo.Collection] handle. *)
Record Collection : Type := mkCollection {
  c_session : Session;
  c_db : string;
  c_name : string
}.

(** An [mgo.Iter]: the documents still to come and the error [Close] will
    report. *)
Record Iter : Type := mkIter {
  pending : list Model;
  iter_err : option mgo_error
}.

(** An [mgo.Query], for what the repository does with it: [query.Iter()]. *)
Record Query : Type := mkQuery { Query_Iter : Iter }.

(** [collection.Find(nil)]: every document of the collection, in the order
    the server holds them. *)
Definition Collection_Find_nil (c : Collection) : Query :=
  match failure (c_session c) with
  | Some msg => mkQuery (mkIter [] (Some (mgo_failure msg)))
  | None =>
      mkQuery (mkIter (snd <$> map_to_list (docsOf (c_session c) (c_db c) (c_name c)))
                      None)
  end.

(** The loop [for iter.Next(model) { result = append(result, model);
    model = r.factory() }] (readrepository.go:109-112 and 132-135), by
    recursion on the documents the iterator still holds; [Next] decodes the
    next document into [model]. *)
Fixpoint collect (factory : unit -> Model) (docs : list Model) (model : Model)
    (result : list Model) : list Model :=
  match docs with
  | [] => result
  | doc :: docs' =>
      let model := decode doc model in
      let result := result ++ [model] in
      let model := factory tt in
      collect factory docs' model result
  end.

(** The part FindCustom and FindAll share once they hold the iterator
    (readrepository.go:106-117 and 129-140); a nil slice is [None]. *)
Definition drain (factory : unit -> Model) (iter : Iter)
  : option (list Model) * option error :=
  let result := [] in
  let model := factory tt in
  let result := collect factory (pending iter) model result in
  match iter_err iter with
  | Some err => (None, Some (as_error err))
  | None => (Some result, None)
  end.

(** FindCustom (readrepository.go:95-118). *)
Definition FindCustom (r : ReadRepository) (callback : Collection -> Query)
  : option (list Model) * option error :=
  let sess := Session_Copy (session r) in
  match factory r with
  | None => (None, Some ErrModelNotSet)
  | Some f =>
      let collection := mkCollection sess (db r) (collection r) in
      let query := callback collection in
      drain f (Query_Iter query)
  end.

(** FindAll (readrepository.go:121-141). *)
Definition FindAll (r : ReadRepository) : option (list Model) * option error :=
  let sess := Session_Copy (session r) in
  match factory r with
  | None => (None, Some ErrModelNotSet)
  | Some f =>
      drain f (Query_Iter (Collection_Find_nil
                             (mkCollection sess (db r) (collection r))))
  end.

(** The repository seen through a session that an operation has changed. *)
Definition withSession (r : ReadRepository) (sess : Session) : ReadRepository :=
  mkReadRepository sess (db r) (collection r) (factory r).

(** Save (readrepository.go:65-73). *)
Definition Save (r : ReadRepository) (id : UUID) (model : Model)
  : ReadRepository * option error :=
  let sess := Session_Copy (session r) in
  let (sess', err) := UpsertId sess (db r) (collection r) id model in
  match err with
  | Some _ => (withSession r sess', Some ErrCouldNotSaveModel)
  | None => (withSession r sess', None)
  end.

(** Remove (readrepository.go:145-155). *)
Definition Remove (r : ReadRepository) (id : UUID)
  : ReadRepository * option error :=
  let sess := Session_Copy (session r) in
  let (sess', err) := RemoveId sess (db r) (collection r) id in
  match err with
  | Some _ => (withSession r sess', Some ErrModelNotFound)
  | None => (withSession r sess', None)
  end.

(** SetDB (readrepository.go:163-165). *)
Definition SetDB (r : ReadRepository) (db : string) : ReadRepository :=
  mkReadRepository (session r) db (collection r) (factory r).

Section Sentinels.

(** The package's errors [ErrNoDBSession] and [ErrCouldNotClearDB], declared
    in a file of the package that is not at hand. *)
Variable ErrNoDBSession ErrCouldNotClearDB : error.

(** NewReadRepositoryWithSession (readrepository.go:50-62); a nil session
    pointer is [None]. *)
Definition NewReadRepositoryWithSession (session : option Session)
    (database collection : string) : option ReadRepository * option error :=
  match session with
  | None => (None, Some ErrNoDBSession)
  | Some session =>
      let r := mkReadRepository session database collection None in
      (Some r, None)
  end.

(** Clear (readrepository.go:168-173). *)
Definition Clear (r : ReadRepository) : ReadRepository * option error :=
  let (sess', err) := DropCollection (session r) (db r) (collection r) in
  match err with
  | Some _ => (withSession r sess', Some ErrCouldNotClearDB)
  | None => (withSession r sess', None)
  end.

End Sentinels.

End Mongodb.

(** * Facts on the version middleware *)

Section GateFacts.

Import Version.

Context {env : Env}.

Lemma isRetry_spec (err : option error) :
  isRetry err = true <-> retryCondition err.
Proof.
  unfold retryCondition. split.
  - destruct err as [[| | | | | |?|[[]|] ns]|]; simpl; try discriminate;
      intros _; exists ns; auto.
  - intros [ns [-> | ->]]; reflexivity.
Qed.

Lemma call_Find_eq (ctx : Context) (id : UUID) (s : State) :
  call_Find ctx id s
  = (fst (ReadWriteRepo_Find ctx id (world s)), afterFind ctx id s).
Proof.
  unfold call_Find, afterFind.
  destruct (ReadWriteRepo_Find ctx id (world s)); reflexivity.
Qed.

Lemma findCalls_app (tr1 tr2 : list Event) :
  findCalls (tr1 ++ tr2) = (findCalls tr1 + findCalls tr2)%nat.
Proof.
  unfold findCalls. rewrite List.filter_app. apply List.length_app.
Qed.

Lemma findCalls_afterFind (ctx : Context) (id : UUID) (s : State) :
  findCalls (trace (afterFind ctx id s)) = S (findCalls (trace s)).
Proof.
  unfold afterFind; simpl. rewrite findCalls_app. unfold findCalls; simpl. lia.
Qed.

(** The step makes its one call and nothing else. *)
Lemma findMinVersion_state (ctx : Context) (id : UUID) (M : Z) (s : State) :
  snd (findMinVersion ctx id M s) = afterFind ctx id s.
Proof.
  unfold findMinVersion, bind. rewrite call_Find_eq.
  destruct (fst (ReadWriteRepo_Find ctx id (world s))) as [model [e|]];
    [reflexivity|].
  destruct (as_Versionable model) as [vb|]; [|reflexivity].
  destruct (AggregateVersion vb <? M); reflexivity.
Qed.

(** The step never hands out a model together with an error. *)
Lemma findMinVersion_error_nil (ctx : Context) (id : UUID) (M : Z) (s : State)
    (model : option Model) (e : error) :
  fst (findMinVersion ctx id M s) = (model, Some e) -> model = None.
Proof.
  unfold findMinVersion, bind. rewrite call_Find_eq.
  destruct (fst (ReadWriteRepo_Find ctx id (world s))) as [m [e'|]]; simpl.
  - congruence.
  - destruct (as_Versionable m) as [vb|]; simpl; [|congruence].
    destruct (AggregateVersion vb <? M); simpl; congruence.
Qed.

(** The step hands on an error of the wrapped Find. *)
Lemma findMinVersion_error (ctx : Context) (id : UUID) (M : Z) (s : State)
    (model : option Model) (e : error) :
  fst (ReadWriteRepo_Find ctx id (world s)) = (model, Some e) ->
  fst (findMinVersion ctx id M s) = (None, Some e).
Proof.
  intros Hw. unfold findMinVersion, bind. now rewrite call_Find_eq, Hw.
Qed.

(** The step on a model without version. *)
Lemma findMinVersion_no_version (ctx : Context) (id : UUID) (M : Z) (s : State)
    (model : option Model) :
  fst (ReadWriteRepo_Find ctx id (world s)) = (model, None) ->
  as_Versionable model = None ->
  fst (findMinVersion ctx id M s)
    = (None, Some (RepoError (Some ErrModelHasNoVersion)
                             (NamespaceFromContext ctx))).
Proof.
  intros Hw Hv. unfold findMinVersion, bind. rewrite call_Find_eq, Hw.
  simpl. now rewrite Hv.
Qed.

(** The step on a model whose version is too low. *)
Lemma findMinVersion_too_low (ctx : Context) (id : UUID) (M : Z) (s : State)
    (model : option Model) (vb : Versionable) :
  fst (ReadWriteRepo_Find ctx id (world s)) = (model, None) ->
  as_Versionable model = Some vb -> AggregateVersion vb < M ->
  fst (findMinVersion ctx id M s)
    = (None, Some (RepoError (Some ErrIncorrectModelVersion)
                             (NamespaceFromContext ctx))).
Proof.
  intros Hw Hv Hlt. unfold findMinVersion, bind. rewrite call_Find_eq, Hw.
  simpl. rewrite Hv.
  destruct (Z.ltb_spec (AggregateVersion vb) M); [reflexivity|lia].
Qed.

(** The step on a model whose version suffices. *)
Lemma findMinVersion_ok (ctx : Context) (id : UUID) (M : Z) (s : State)
    (model : option Model) (vb : Versionable) :
  fst (ReadWriteRepo_Find ctx id (world s)) = (model, None) ->
  as_Versionable model = Some vb -> M <= AggregateVersion vb ->
  fst (findMinVersion ctx id M s) = (model, None).
Proof.
  intros Hw Hv Hle. unfold findMinVersion, bind. rewrite call_Find_eq, Hw.
  simpl. rewrite Hv.
  destruct (Z.ltb_spec (AggregateVersion vb) M); [lia|reflexivity].
Qed.

Lemma call_select_eq (ctx : Context) (d : Z) (s : State) :
  call_select ctx d s
  = (fst (select_After_Done ctx d (world s)), afterSelect ctx d s).
Proof.
  unfold call_select, afterSelect.
  destruct (select_After_Done ctx d (world s)); reflexivity.
Qed.

Lemma findCalls_afterSelect (ctx : Context) (d : Z) (s : State) :
  findCalls (trace (afterSelect ctx d s)) = findCalls (trace s).
Proof.
  unfold afterSelect; simpl. rewrite findCalls_app. unfold findCalls; simpl. lia.
Qed.

(** One pass through the loop body, branch by branch, in terms of the result
    of the step and of the branch the [select] takes. *)
Lemma Find_body_eq (ctx : Context) (id : UUID) (M : Z) (hasDeadline : bool)
    (delay : Backoff) (s : State) :
  Find_body ctx id M hasDeadline delay s =
    let r := fst (findMinVersion ctx id M s) in
    let s1 := afterFind ctx id s in
    let d := ForAttempt (attempt delay) in
    if isRetry (snd r) then
      if hasDeadline then
        match fst (select_After_Done ctx d (world s1)) with
        | CaseTimeAfter =>
            (Next, mkBackoff (S (attempt delay)), afterSelect ctx d s1)
        | CaseCtxDone why =>
            (Return (None, ctx_Err why), mkBackoff (S (attempt delay)),
             afterSelect ctx d s1)
        end
      else (Return r, delay, s1)
    else
      match snd r with
      | Some e => (Return (None, Some e), delay, s1)
      | None => (Return r, delay, s1)
      end.
Proof.
  unfold Find_body, bind. rewrite <- (findMinVersion_state ctx id M s).
  destruct (findMinVersion ctx id M s) as [[model err] s1]; simpl.
  destruct (isRetry err).
  - destruct hasDeadline; simpl; [|reflexivity].
    unfold bind. rewrite call_select_eq.
    destruct (fst (select_After_Done ctx _ (world s1))); reflexivity.
  - destruct err; reflexivity.
Qed.

(** Case analysis on a pass through the loop body: first on whether the
    step's error is one of the two retry conditions. *)
Ltac body_cases ctx id M s Hr :=
  rewrite Find_body_eq; cbv zeta;
  destruct (isRetry (snd (fst (findMinVersion ctx id M s)))) eqn:Hr.

(** Unfolding of [Find] under a requirement. *)
Lemma Find_requires (fuel : nat) (ctx : Context) (id : UUID) (M : Z) (s : State) :
  requires ctx M ->
  Find fuel ctx id s = Find_loop fuel ctx id M (Find_fallback ctx) s.
Proof.
  intros [HM Hge]. unfold Find, MinVersionFromContext. rewrite HM. simpl.
  destruct (Z.ltb_spec M 1); [lia|reflexivity].
Qed.

(** ** The properties of the version middleware *)

(** C1 (pass-through): when the context carries no minimum-version
    requirement, or one below 1, [Find] is the wrapped repository's Find: it
    returns, whatever the fuel, the model and the error of that one call, and
    the trace grows by exactly that call. *)
Theorem Find_pass_through (fuel : nat) (ctx : Context) (id : UUID) (s : State) :
  noRequirement ctx ->
  Find fuel ctx id s
    = Some (fst (ReadWriteRepo_Find ctx id (world s)), afterFind ctx id s)
  /\ trace (afterFind ctx id s) = trace s ++ [EvFind id]
  /\ findCalls (trace (afterFind ctx id s)) = S (findCalls (trace s)).
Proof.
  intros Hno. split; [|split; [reflexivity|apply findCalls_afterFind]].
  unfold Find, MinVersionFromContext. unfold noRequirement in Hno.
  destruct (ctx_minVersion ctx) as [v|]; simpl.
  - destruct (Z.ltb_spec v 1); [|lia]. now rewrite call_Find_eq.
  - now rewrite call_Find_eq.
Qed.

(** C2 (find-at-least step): with [(model, err)] the answer of the wrapped
    Find, [findMinVersion] returns the fetched model without error exactly when
    [err] is nil, the model is Versionable and its version is at least [M];
    it fails with ModelHasNoVersion when the fetched model is not Versionable,
    with IncorrectVersion when its version is below [M], and hands on the
    wrapped Find's error otherwise.  It makes that one call only. *)
Theorem findMinVersion_spec (ctx : Context) (id : UUID) (M : Z) (s : State)
    (model : option Model) (err : option error) :
  fst (ReadWriteRepo_Find ctx id (world s)) = (model, err) ->
  let res := fst (findMinVersion ctx id M s) in
  let ns := NamespaceFromContext ctx in
  (res = (model, None)
     <-> err = None /\ exists vb, as_Versionable model = Some vb
                                  /\ M <= AggregateVersion vb)
  /\ (forall e, err = Some e -> res = (None, Some e))
  /\ (err = None -> as_Versionable model = None ->
        res = (None, Some (RepoError (Some ErrModelHasNoVersion) ns)))
  /\ (err = None ->
        forall vb, as_Versionable model = Some vb -> AggregateVersion vb < M ->
        res = (None, Some (RepoError (Some ErrIncorrectModelVersion) ns)))
  /\ snd (findMinVersion ctx id M s) = afterFind ctx id s.
Proof.
  intros Hw res ns. subst res ns.
  split; [|split; [|split; [|split]]].
  - destruct err as [e|].
    + rewrite (findMinVersion_error _ _ _ _ _ _ Hw).
      split; [discriminate | intros [H _]; discriminate].
    + destruct (as_Versionable model) as [vb|] eqn:Hv.
      * destruct (Z.lt_ge_cases (AggregateVersion vb) M) as [Hlt|Hle].
        -- rewrite (findMinVersion_too_low _ _ _ _ _ _ Hw Hv Hlt).
           split; [discriminate|].
           intros [_ (vb' & Hvb & Hle)]. injection Hvb as <-. lia.
        -- rewrite (findMinVersion_ok _ _ _ _ _ _ Hw Hv Hle).
           split; [intros _; split; [reflexivity|]; exists vb; auto|].
           reflexivity.
      * rewrite (findMinVersion_no_version _ _ _ _ _ Hw Hv).
        split; [discriminate|].
        intros [_ (vb' & Hvb & _)]. discriminate.
  - intros e ->. now apply findMinVersion_error with model.
  - intros -> Hv. now apply findMinVersion_no_version with model.
  - intros -> vb Hv Hlt. now apply findMinVersion_too_low with model vb.
  - apply findMinVersion_state.
Qed.

(** The first pass of the loop of [Find]. *)
Lemma Find_loop_S (fuel : nat) (ctx : Context) (id : UUID) (M : Z)
    (after : Eff FindResult) (s : State) :
  Find_loop (S fuel) ctx id M after s =
    match Find_body ctx id M (snd (Deadline ctx)) (mkBackoff 0) s with
    | (Next, l', s') =>
        for_loop fuel (Find_body ctx id M (snd (Deadline ctx))) l' after s'
    | (Break, _, s') => Some (after s')
    | (Return r, _, s') => Some (r, s')
    end.
Proof. reflexivity. Qed.

Lemma Deadline_present (ctx : Context) :
  snd (Deadline ctx) = true <-> ctx_deadline ctx <> None.
Proof.
  unfold Deadline. destruct (ctx_deadline ctx); simpl; split; congruence.
Qed.

(** A pass that sees an error outside the two retry conditions returns it. *)
Lemma Find_body_real_error (ctx : Context) (id : UUID) (M : Z)
    (hasDeadline : bool) (delay : Backoff) (s : State) (e : error) :
  snd (fst (findMinVersion ctx id M s)) = Some e ->
  ~ retryCondition (Some e) ->
  Find_body ctx id M hasDeadline delay s
    = (Return (None, Some e), delay, afterFind ctx id s).
Proof.
  intros He Hnot. rewrite Find_body_eq. cbv zeta. rewrite He.
  destruct (isRetry (Some e)) eqn:Hr; [|reflexivity].
  apply isRetry_spec in Hr. contradiction.
Qed.

(** A pass goes round again only on a retry condition under a deadline. *)
Lemma Find_body_Next (ctx : Context) (id : UUID) (M : Z)
    (hasDeadline : bool) (delay : Backoff) (s : State) :
  fst (fst (Find_body ctx id M hasDeadline delay s)) = Next ->
  retryCondition (snd (fst (findMinVersion ctx id M s))) /\ hasDeadline = true.
Proof.
  body_cases ctx id M s Hr.
  - apply isRetry_spec in Hr. destruct hasDeadline; [auto|discriminate].
  - destruct (snd (fst (findMinVersion ctx id M s))); discriminate.
Qed.

(** A pass that returns has made one call to the wrapped repository. *)
Lemma Find_body_Return_calls (ctx : Context) (id : UUID) (M : Z)
    (hasDeadline : bool) (delay : Backoff) (s : State) (r : FindResult) :
  fst (fst (Find_body ctx id M hasDeadline delay s)) = Return r ->
  findCalls (trace (snd (Find_body ctx id M hasDeadline delay s)))
    = S (findCalls (trace s)).
Proof.
  body_cases ctx id M s Hr.
  - destruct hasDeadline; cbn [fst snd].
    + destruct (fst (select_After_Done ctx _ _)); cbn [fst snd];
        [discriminate|].
      intros _. rewrite findCalls_afterSelect. apply findCalls_afterFind.
    + intros _. apply findCalls_afterFind.
  - destruct (snd (fst (findMinVersion ctx id M s))); cbn [fst snd]; intros _;
      apply findCalls_afterFind.
Qed.

(** No pass ends by [break]. *)
Lemma Find_body_no_Break (ctx : Context) (id : UUID) (M : Z)
    (hasDeadline : bool) (delay : Backoff) (s : State) :
  fst (fst (Find_body ctx id M hasDeadline delay s)) <> Break.
Proof.
  body_cases ctx id M s Hr.
  - destruct hasDeadline; simpl; [|discriminate].
    destruct (fst (select_After_Done ctx _ _)); discriminate.
  - destruct (snd (fst (findMinVersion ctx id M s))); discriminate.
Qed.

(** A pass that meets a retry condition under a deadline and whose timer
    fires first waits and goes round again, the backoff one attempt on. *)
Lemma Find_body_retry (ctx : Context) (id : UUID) (M : Z) (delay : Backoff)
    (s : State) :
  retryCondition (snd (fst (findMinVersion ctx id M s))) ->
  fst (select_After_Done ctx (ForAttempt (attempt delay))
         (world (afterFind ctx id s))) = CaseTimeAfter ->
  Find_body ctx id M true delay s
  = (Next, mkBackoff (S (attempt delay)),
     afterSelect ctx (ForAttempt (attempt delay)) (afterFind ctx id s)).
Proof.
  intros Hc Hsel. rewrite Find_body_eq. cbv zeta.
  apply isRetry_spec in Hc. now rewrite Hc, Hsel.
Qed.

(** Every run of the loop that returns has begun with a call to the wrapped
    repository for [id]. *)
Lemma for_loop_first_call (ctx : Context) (id : UUID) (M : Z)
    (hasDeadline : bool) (after : Eff FindResult) (fuel : nat) :
  forall (delay : Backoff) (s s' : State) (res : FindResult),
    for_loop fuel (Find_body ctx id M hasDeadline) delay after s
      = Some (res, s') ->
    exists tr, trace s' = trace s ++ EvFind id :: tr.
Proof.
  induction fuel as [|fuel IH]; intros delay s s' res; simpl; [discriminate|].
  pose proof (Find_body_no_Break ctx id M hasDeadline delay s) as HBrk.
  rewrite Find_body_eq in *. cbv zeta in *.
  destruct (isRetry (snd (fst (findMinVersion ctx id M s)))).
  - destruct hasDeadline.
    + destruct (fst (select_After_Done ctx _ _)).
      * intros Hrun. apply IH in Hrun as [tr Htr].
        exists (EvSelect (ForAttempt (attempt delay)) :: EvFind id :: tr).
        rewrite Htr. unfold afterSelect, afterFind. cbn [trace].
        now rewrite <- !app_assoc.
      * intros H. injection H as _ <-.
        exists [EvSelect (ForAttempt (attempt delay))].
        unfold afterSelect, afterFind. cbn [trace]. now rewrite <- app_assoc.
    + intros H. injection H as _ <-. now exists [].
  - destruct (snd (fst (findMinVersion ctx id M s))); intros H;
      injection H as _ <-; now exists [].
Qed.

(** C3 (retry policy): under a requirement [M >= 1], a pass of the loop goes
    round again exactly when the step failed with the NotFound or
    IncorrectVersion condition, the context has a deadline and the timer fires
    before the context is done; so under a deadline such a failure of the
    first attempt is followed by the wait and a second call to the wrapped
    repository, and a run with more than one call started with such a failure
    under a deadline.  Any other error of the step, in particular any other
    error the wrapped Find returned, comes back from [Find] after the first
    attempt, with the one call made and nothing after it. *)
Theorem Find_retry_policy (ctx : Context) (id : UUID) (M : Z) (s : State) :
  requires ctx M ->
  let step := fst (findMinVersion ctx id M s) in
  (forall hasDeadline delay s0,
      fst (fst (Find_body ctx id M hasDeadline delay s0)) = Next ->
      retryCondition (snd (fst (findMinVersion ctx id M s0)))
      /\ hasDeadline = true)
  /\ (forall fuel res s',
        Find fuel ctx id s = Some (res, s') ->
        (S (findCalls (trace s)) < findCalls (trace s'))%nat ->
        retryCondition (snd step) /\ ctx_deadline ctx <> None)
  /\ (forall e fuel,
        snd step = Some e -> ~ retryCondition (Some e) ->
        Find (S fuel) ctx id s = Some ((None, Some e), afterFind ctx id s)
        /\ findCalls (trace (afterFind ctx id s)) = S (findCalls (trace s)))
  /\ (forall model e fuel,
        fst (ReadWriteRepo_Find ctx id (world s)) = (model, Some e) ->
        ~ retryCondition (Some e) ->
        Find (S fuel) ctx id s = Some ((None, Some e), afterFind ctx id s))
  /\ (forall hasDeadline delay s0,
        fst (fst (Find_body ctx id M hasDeadline delay s0)) = Next <->
        retryCondition (snd (fst (findMinVersion ctx id M s0)))
        /\ hasDeadline = true
        /\ fst (select_After_Done ctx (ForAttempt (attempt delay))
                  (world (afterFind ctx id s0))) = CaseTimeAfter)
  /\ (forall delay s0,
        retryCondition (snd (fst (findMinVersion ctx id M s0))) ->
        fst (select_After_Done ctx (ForAttempt (attempt delay))
               (world (afterFind ctx id s0))) = CaseTimeAfter ->
        Find_body ctx id M true delay s0
        = (Next, mkBackoff (S (attempt delay)),
           afterSelect ctx (ForAttempt (attempt delay)) (afterFind ctx id s0)))
  /\ (retryCondition (snd step) -> ctx_deadline ctx <> None ->
      fst (select_After_Done ctx (ForAttempt 0) (world (afterFind ctx id s)))
        = CaseTimeAfter ->
      forall fuel,
        Find (S fuel) ctx id s
        = for_loop fuel (Find_body ctx id M (snd (Deadline ctx))) (mkBackoff 1)
                   (Find_fallback ctx)
                   (afterSelect ctx (ForAttempt 0) (afterFind ctx id s))
        /\ forall res s',
             Find (S fuel) ctx id s = Some (res, s') ->
             (findCalls (trace s) + 2 <= findCalls (trace s'))%nat
             /\ exists tr,
                  trace s'
                  = trace s ++ [EvFind id; EvSelect (ForAttempt 0); EvFind id]
                            ++ tr).
Proof.
  intros Hreq step.
  assert (Hreal : forall e fuel,
    snd step = Some e -> ~ retryCondition (Some e) ->
    Find (S fuel) ctx id s = Some ((None, Some e), afterFind ctx id s)).
  { intros e fuel He Hnot. rewrite (Find_requires _ _ _ _ _ Hreq), Find_loop_S.
    now rewrite (Find_body_real_error _ _ _ _ _ _ _ He Hnot). }
  split; [|split; [|split; [|split; [|split; [|split]]]]].
  - intros hasDeadline delay s0. apply Find_body_Next.
  - intros [|fuel] res s'; rewrite (Find_requires _ _ _ _ _ Hreq);
      [discriminate|].
    rewrite Find_loop_S. intros Hrun Hcalls.
    pose proof (Find_body_Next ctx id M (snd (Deadline ctx)) (mkBackoff 0) s)
      as HNext.
    pose proof (Find_body_Return_calls ctx id M (snd (Deadline ctx))
                  (mkBackoff 0) s) as HRet.
    pose proof (Find_body_no_Break ctx id M (snd (Deadline ctx))
                  (mkBackoff 0) s) as HBrk.
    destruct (Find_body ctx id M (snd (Deadline ctx)) (mkBackoff 0) s)
      as [[[| |r] l'] s1]; simpl in *.
    + destruct (HNext eq_refl) as [Hc Hd]. split; [exact Hc|].
      now apply Deadline_present.
    + now contradiction HBrk.
    + injection Hrun as <- <-. specialize (HRet r eq_refl). lia.
  - intros e fuel He Hnot. split; [now apply Hreal|apply findCalls_afterFind].
  - intros model e fuel Hw Hnot. apply Hreal; [|exact Hnot].
    subst step. now rewrite (findMinVersion_error _ _ _ _ _ _ Hw).
  - intros hasDeadline delay s0. split.
    + intros HNext. destruct (Find_body_Next _ _ _ _ _ _ HNext) as [Hc ->].
      split; [exact Hc|]. split; [reflexivity|].
      rewrite Find_body_eq in HNext. cbv zeta in HNext.
      apply isRetry_spec in Hc. rewrite Hc in HNext.
      now destruct (fst (select_After_Done ctx _ _)).
    + intros (Hc & -> & Hsel). now rewrite (Find_body_retry _ _ _ _ _ Hc Hsel).
  - intros delay s0. apply Find_body_retry.
  - intros Hc Hdl Hsel fuel. apply Deadline_present in Hdl.
    assert (Heq : Find (S fuel) ctx id s
                  = for_loop fuel (Find_body ctx id M (snd (Deadline ctx)))
                      (mkBackoff 1) (Find_fallback ctx)
                      (afterSelect ctx (ForAttempt 0) (afterFind ctx id s))).
    { rewrite (Find_requires _ _ _ _ _ Hreq), Find_loop_S, Hdl.
      now rewrite (Find_body_retry ctx id M (mkBackoff 0) s Hc Hsel). }
    split; [exact Heq|]. intros res s'. rewrite Heq. intros Hrun.
    apply for_loop_first_call in Hrun as [tr Htr].
    assert (Htrace : trace s'
              = trace s ++ [EvFind id; EvSelect (ForAttempt 0); EvFind id] ++ tr).
    { rewrite Htr. unfold afterSelect, afterFind. cbn [trace].
      now rewrite <- !app_assoc. }
    split; [|now exists tr].
    rewrite Htrace, !findCalls_app.
    change (findCalls [EvFind id; EvSelect (ForAttempt 0); EvFind id])
      with 2%nat.
    lia.
Qed.

(** Without a deadline the first pass returns what the step returned. *)
Lemma Find_body_no_deadline (ctx : Context) (id : UUID) (M : Z)
    (delay : Backoff) (s : State) :
  Find_body ctx id M false delay s
    = (Return (fst (findMinVersion ctx id M s)), delay, afterFind ctx id s).
Proof.
  rewrite Find_body_eq. cbv zeta.
  pose proof (findMinVersion_error_nil ctx id M s) as Hnil.
  destruct (fst (findMinVersion ctx id M s)) as [model [e|]]; cbn [snd].
  - rewrite (Hnil model e eq_refl). destruct (isRetry (Some e)); reflexivity.
  - reflexivity.
Qed.

(** C4 (no deadline, single attempt): under a requirement [M >= 1] and
    without a deadline, [Find] makes exactly one call to the wrapped repository
    and returns what that single attempt of the step gave: IncorrectVersion
    when the model's version is below [M], the wrapped Find's error (NotFound
    for an absent model) when it failed. *)
Theorem Find_no_deadline (fuel : nat) (ctx : Context) (id : UUID) (M : Z)
    (s : State) :
  requires ctx M -> ctx_deadline ctx = None ->
  Find (S fuel) ctx id s
    = Some (fst (findMinVersion ctx id M s), afterFind ctx id s)
  /\ findCalls (trace (afterFind ctx id s)) = S (findCalls (trace s))
  /\ (forall model vb,
        fst (ReadWriteRepo_Find ctx id (world s)) = (model, None) ->
        as_Versionable model = Some vb -> AggregateVersion vb < M ->
        Find (S fuel) ctx id s
          = Some ((None, Some (RepoError (Some ErrIncorrectModelVersion)
                                         (NamespaceFromContext ctx))),
                  afterFind ctx id s))
  /\ (forall model e,
        fst (ReadWriteRepo_Find ctx id (world s)) = (model, Some e) ->
        Find (S fuel) ctx id s = Some ((None, Some e), afterFind ctx id s)).
Proof.
  intros Hreq Hnone.
  assert (Hrun : Find (S fuel) ctx id s
                 = Some (fst (findMinVersion ctx id M s), afterFind ctx id s)).
  { rewrite (Find_requires _ _ _ _ _ Hreq), Find_loop_S.
    unfold Deadline. rewrite Hnone. cbn [snd].
    now rewrite Find_body_no_deadline. }
  split; [exact Hrun|]. split; [apply findCalls_afterFind|]. split.
  - intros model vb Hw Hv Hlt.
    now rewrite Hrun, (findMinVersion_too_low _ _ _ _ _ _ Hw Hv Hlt).
  - intros model e Hw. now rewrite Hrun, (findMinVersion_error _ _ _ _ _ _ Hw).
Qed.

(** C5 (model without version): under a requirement [M >= 1], if the wrapped
    repository returns a model that is not Versionable, [Find] fails with
    ModelHasNoVersion after that first call, with or without a deadline (the
    statement does not mention one), and makes no second call. *)
Theorem Find_model_has_no_version (fuel : nat) (ctx : Context) (id : UUID)
    (M : Z) (s : State) (model : option Model) :
  requires ctx M ->
  fst (ReadWriteRepo_Find ctx id (world s)) = (model, None) ->
  as_Versionable model = None ->
  Find (S fuel) ctx id s
    = Some ((None, Some (RepoError (Some ErrModelHasNoVersion)
                                   (NamespaceFromContext ctx))),
            afterFind ctx id s)
  /\ trace (afterFind ctx id s) = trace s ++ [EvFind id]
  /\ findCalls (trace (afterFind ctx id s)) = S (findCalls (trace s)).
Proof.
  intros Hreq Hw Hv. split; [|split; [reflexivity|apply findCalls_afterFind]].
  rewrite (Find_requires _ _ _ _ _ Hreq), Find_loop_S.
  rewrite (Find_body_real_error ctx id M _ _ s
             (RepoError (Some ErrModelHasNoVersion) (NamespaceFromContext ctx))).
  - reflexivity.
  - now rewrite (findMinVersion_no_version _ _ _ _ _ Hw Hv).
  - intros [ns [H | H]]; discriminate.
Qed.

(** A pass never returns a model together with an error. *)
Lemma Find_body_error_nil (ctx : Context) (id : UUID) (M : Z)
    (hasDeadline : bool) (delay : Backoff) (s : State)
    (model : option Model) (e : error) :
  fst (fst (Find_body ctx id M hasDeadline delay s)) = Return (model, Some e) ->
  model = None.
Proof.
  rewrite Find_body_eq. cbv zeta.
  pose proof (findMinVersion_error_nil ctx id M s) as Hnil.
  destruct (fst (findMinVersion ctx id M s)) as [m err]; cbn [snd].
  destruct (isRetry err).
  - destruct hasDeadline.
    + destruct (fst (select_After_Done ctx _ _)); cbn [fst];
        [discriminate|congruence].
    + cbn [fst]. intros H. injection H as -> ->. now apply (Hnil model e).
  - destruct err; cbn [fst]; congruence.
Qed.

(** The same for the whole loop, wherever it is entered. *)
Lemma for_loop_error_nil (ctx : Context) (id : UUID) (M : Z)
    (hasDeadline : bool) (after : Eff FindResult) (fuel : nat) :
  forall (delay : Backoff) (s s' : State) (model : option Model) (e : error),
    for_loop fuel (Find_body ctx id M hasDeadline) delay after s
      = Some ((model, Some e), s') ->
    model = None.
Proof.
  induction fuel as [|fuel IH]; intros delay s s' model e; simpl;
    [discriminate|].
  pose proof (Find_body_error_nil ctx id M hasDeadline delay s) as Hnil.
  pose proof (Find_body_no_Break ctx id M hasDeadline delay s) as HBrk.
  destruct (Find_body ctx id M hasDeadline delay s) as [[[| |r] l'] s1];
    cbn [fst] in *.
  - apply IH.
  - now contradiction HBrk.
  - intros H. injection H as -> _. now apply (Hnil model e).
Qed.

(** C10 (no model beside an error): under a requirement [M >= 1], whenever
    [Find] returns a non-nil error the model it returns is nil, on every path
    including the single attempt made without a deadline. *)
Theorem Find_error_model_nil (fuel : nat) (ctx : Context) (id : UUID) (M : Z)
    (s s' : State) (model : option Model) (e : error) :
  requires ctx M ->
  Find fuel ctx id s = Some ((model, Some e), s') ->
  model = None.
Proof.
  intros Hreq. rewrite (Find_requires _ _ _ _ _ Hreq). unfold Find_loop.
  apply for_loop_error_nil.
Qed.

(** The statement after the loop has no part in what the loop computes. *)
Lemma for_loop_after_irrelevant (ctx : Context) (id : UUID) (M : Z)
    (hasDeadline : bool) (after1 after2 : Eff FindResult) (fuel : nat) :
  forall (delay : Backoff) (s : State),
    for_loop fuel (Find_body ctx id M hasDeadline) delay after1 s
    = for_loop fuel (Find_body ctx id M hasDeadline) delay after2 s.
Proof.
  induction fuel as [|fuel IH]; intros delay s; simpl; [reflexivity|].
  pose proof (Find_body_no_Break ctx id M hasDeadline delay s) as HBrk.
  destruct (Find_body ctx id M hasDeadline delay s) as [[[| |r] l'] s1];
    cbn [fst] in *.
  - apply IH.
  - now contradiction HBrk.
  - reflexivity.
Qed.

(** The ways a pass of the loop body returns, read off the step's result. *)
Lemma Find_body_Return (ctx : Context) (id : UUID) (M : Z)
    (hasDeadline : bool) (delay : Backoff) (s : State) (res : FindResult) :
  fst (fst (Find_body ctx id M hasDeadline delay s)) = Return res ->
  let step := fst (findMinVersion ctx id M s) in
  let d := ForAttempt (attempt delay) in
  (snd step = None /\ res = step)
  \/ (exists e, snd step = Some e /\ ~ retryCondition (Some e)
                /\ res = (None, Some e))
  \/ (retryCondition (snd step) /\ hasDeadline = false /\ res = step)
  \/ (retryCondition (snd step) /\ hasDeadline = true
      /\ exists why,
           fst (select_After_Done ctx d (world (afterFind ctx id s)))
             = CaseCtxDone why
           /\ res = (None, ctx_Err why)).
Proof.
  body_cases ctx id M s Hr.
  - apply isRetry_spec in Hr. destruct hasDeadline.
    + destruct (fst (select_After_Done ctx _ _)) as [|why] eqn:Hsel;
        cbn [fst]; [discriminate|].
      intros H. injection H as <-. right; right; right.
      split; [exact Hr|]. split; [reflexivity|]. now exists why.
    + cbn [fst]. intros H. injection H as <-. right; right; left. auto.
  - assert (Hnot : ~ retryCondition (snd (fst (findMinVersion ctx id M s)))).
    { intros Hc. apply isRetry_spec in Hc. congruence. }
    destruct (snd (fst (findMinVersion ctx id M s))) as [e|] eqn:He;
      cbn [fst]; intros H; injection H as <-.
    + right; left. exists e. auto.
    + left. auto.
Qed.

(** C8 (exits of the loop): no pass through the body of the loop ends by
    [break]; a pass that returns does so on success, on an error outside the
    retry conditions, or on a retry condition either without a deadline (the
    single attempt) or with the [select] taking [ctx.Done()]; and the [return]
    placed after the loop is never run: replacing it by any other statement
    changes no run of [Find], for any input and any fuel. *)
Theorem Find_loop_exits (ctx : Context) (id : UUID) (s : State) (fuel : nat) :
  (forall M hasDeadline delay s0,
      fst (fst (Find_body ctx id M hasDeadline delay s0)) <> Break)
  /\ (forall M hasDeadline delay s0 res,
        fst (fst (Find_body ctx id M hasDeadline delay s0)) = Return res ->
        let step := fst (findMinVersion ctx id M s0) in
        (snd step = None /\ res = step)
        \/ (exists e, snd step = Some e /\ ~ retryCondition (Some e)
                      /\ res = (None, Some e))
        \/ (retryCondition (snd step) /\ hasDeadline = false /\ res = step)
        \/ (retryCondition (snd step) /\ hasDeadline = true
            /\ exists why,
                 fst (select_After_Done ctx (ForAttempt (attempt delay))
                        (world (afterFind ctx id s0))) = CaseCtxDone why
                 /\ res = (None, ctx_Err why)))
  /\ (forall after : Eff FindResult,
        Find_with after fuel ctx id s = Find fuel ctx id s).
Proof.
  split; [|split].
  - intros M hasDeadline delay s0. apply Find_body_no_Break.
  - intros M hasDeadline delay s0 res. apply Find_body_Return.
  - intros after. unfold Find_with, Find, Find_loop.
    destruct (MinVersionFromContext ctx) as [minVersion ok].
    destruct (negb ok || (minVersion <? 1)); [reflexivity|].
    apply for_loop_after_irrelevant.
Qed.

Lemma staleAnswer_retry (ctx : Context) (id : UUID) (M : Z) (s : State) :
  staleAnswer M (fst (ReadWriteRepo_Find ctx id (world s))) ->
  retryCondition (snd (fst (findMinVersion ctx id M s))).
Proof.
  intros [(model & ns & Hw) | (model & vb & Hw & Hv & Hlt)].
  - rewrite (findMinVersion_error _ _ _ _ _ _ Hw). exists ns. now left.
  - rewrite (findMinVersion_too_low _ _ _ _ _ _ Hw Hv Hlt).
    exists (NamespaceFromContext ctx). now right.
Qed.

(** A pass in which the [select] takes [ctx.Done()] ends the loop with
    [ctx.Err()]. *)
Lemma for_loop_ctx_done (ctx : Context) (id : UUID) (M : Z)
    (after : Eff FindResult) (fuel : nat) (delay : Backoff) (s : State)
    (why : DoneReason) :
  retryCondition (snd (fst (findMinVersion ctx id M s))) ->
  fst (select_After_Done ctx (ForAttempt (attempt delay))
         (world (afterFind ctx id s))) = CaseCtxDone why ->
  for_loop (S fuel) (Find_body ctx id M true) delay after s
    = Some ((None, ctx_Err why),
            afterSelect ctx (ForAttempt (attempt delay)) (afterFind ctx id s)).
Proof.
  intros Hr Hsel. simpl. rewrite Find_body_eq. cbv zeta.
  apply isRetry_spec in Hr. now rewrite Hr, Hsel.
Qed.

(** While the wrapped repository stays stale and every timer that fires
    brings the deadline nearer, the loop ends with [ctx.Err()]. *)
Lemma for_loop_deadline (ctx : Context) (id : UUID) (M : Z)
    (after : Eff FindResult) (Inv : World -> Prop) (left : World -> nat) :
  (forall w, Inv w -> staleAnswer M (fst (ReadWriteRepo_Find ctx id w))) ->
  (forall w n w2,
      Inv w ->
      select_After_Done ctx (ForAttempt n) (snd (ReadWriteRepo_Find ctx id w))
        = (CaseTimeAfter, w2) ->
      Inv w2 /\ (left w2 < left w)%nat) ->
  forall (fuel : nat) (delay : Backoff) (s : State),
    Inv (world s) -> (left (world s) < fuel)%nat ->
    exists why tr d w',
      for_loop fuel (Find_body ctx id M true) delay after s
        = Some ((None, ctx_Err why), mkState w' (tr ++ [EvFind id; EvSelect d])).
Proof.
  intros Hstale Hstep. induction fuel as [|fuel IH]; intros delay s Hinv Hlt;
    [lia|].
  pose proof (staleAnswer_retry ctx id M s (Hstale _ Hinv)) as Hr.
  destruct (select_After_Done ctx (ForAttempt (attempt delay))
              (world (afterFind ctx id s))) as [c w2] eqn:Hsel.
  destruct c as [|why].
  - destruct (Hstep _ _ _ Hinv Hsel) as [Hinv2 Hless].
    simpl. rewrite Find_body_eq. cbv zeta.
    apply isRetry_spec in Hr. rewrite Hr, Hsel. cbn [fst].
    apply IH; unfold afterSelect; rewrite Hsel; simpl; [exact Hinv2|lia].
  - exists why, (trace s), (ForAttempt (attempt delay)), w2.
    rewrite (for_loop_ctx_done ctx id M after fuel delay s why Hr);
      [|now rewrite Hsel].
    unfold afterSelect. rewrite Hsel. unfold afterFind. simpl.
    now rewrite <- app_assoc.
Qed.

(** C6 (cancellation during the wait): under a requirement [M >= 1] and a
    deadline, (1) in whatever pass of the loop the step failed with a retry
    condition and the [select] takes [ctx.Done()], the loop returns
    [ctx.Err()] (Canceled or DeadlineExceeded) with nothing after that
    [select], in place of the IncorrectVersion or NotFound of the step; hence
    (2) if the wrapped repository stays below [M] (invariant [Inv]) and every
    timer that fires uses up some of the time left until the context is done
    (measure [left]), [Find] returns [ctx.Err()], and the last thing it did is
    the call followed by the [select]. *)
Theorem Find_deadline_cancellation (ctx : Context) (id : UUID) (M : Z)
    (Inv : World -> Prop) (left : World -> nat) :
  requires ctx M -> ctx_deadline ctx <> None ->
  (forall fuel delay s0 why,
      retryCondition (snd (fst (findMinVersion ctx id M s0))) ->
      fst (select_After_Done ctx (ForAttempt (attempt delay))
             (world (afterFind ctx id s0))) = CaseCtxDone why ->
      for_loop (S fuel) (Find_body ctx id M (snd (Deadline ctx))) delay
               (Find_fallback ctx) s0
        = Some ((None, Some (ErrContext why)),
                afterSelect ctx (ForAttempt (attempt delay))
                            (afterFind ctx id s0)))
  /\ ((forall w, Inv w -> staleAnswer M (fst (ReadWriteRepo_Find ctx id w))) ->
      (forall w n w2,
          Inv w ->
          select_After_Done ctx (ForAttempt n)
                            (snd (ReadWriteRepo_Find ctx id w))
            = (CaseTimeAfter, w2) ->
          Inv w2 /\ (left w2 < left w)%nat) ->
      forall fuel s,
        Inv (world s) -> (left (world s) < fuel)%nat ->
        exists why tr d w',
          Find fuel ctx id s
            = Some ((None, Some (ErrContext why)),
                    mkState w' (tr ++ [EvFind id; EvSelect d]))).
Proof.
  intros Hreq Hdl. apply Deadline_present in Hdl. rewrite Hdl. split.
  - intros fuel delay s0 why. apply for_loop_ctx_done.
  - intros Hstale Hstep fuel s Hinv Hlt.
    rewrite (Find_requires _ _ _ _ _ Hreq). unfold Find_loop. rewrite Hdl.
    now apply (for_loop_deadline ctx id M _ Inv left).
Qed.

End GateFacts.

(** * Facts on the chain walker *)

Section ChainFacts.

Import Version.

(** The chain is the list of the iterated parents. *)
Lemma chain_Parent (repo : ReadRepo) :
  repo <> nilRepo -> chain repo = repo :: chain (Parent repo).
Proof.
  destruct repo as [|[inner]|name parent]; [congruence|reflexivity|reflexivity].
Qed.

Lemma nearestGate_Some (layers : list ReadRepo) (g : Repo) :
  nearestGate layers = Some g <->
  exists k, layers !! k = Some (ptrRepo g)
            /\ forall j layer, (j < k)%nat -> layers !! j = Some layer ->
                               as_Repo layer = None.
Proof.
  induction layers as [|layer inner IH]; simpl.
  - split; [discriminate|]. intros (k & Hk & _). now destruct k.
  - destruct (as_Repo layer) as [r|] eqn:Hl.
    + destruct layer as [|r'|]; try discriminate. injection Hl as ->. split.
      * intros H. injection H as ->. exists 0%nat. split; [reflexivity|].
        intros j layer Hj. lia.
      * intros (k & Hk & Hbefore). destruct k as [|k].
        -- simpl in Hk. congruence.
        -- specialize (Hbefore 0%nat (ptrRepo r) ltac:(lia) eq_refl).
           discriminate.
    + rewrite IH. split.
      * intros (k & Hk & Hbefore). exists (S k). split; [exact Hk|].
        intros [|j] layer' Hj Hlook; simpl in Hlook.
        -- congruence.
        -- apply (Hbefore j); [lia|exact Hlook].
      * intros (k & Hk & Hbefore). destruct k as [|k]; simpl in Hk.
        -- injection Hk as ->. discriminate.
        -- exists k. split; [exact Hk|].
           intros j layer' Hj Hlook. apply (Hbefore (S j)); [lia|exact Hlook].
Qed.

Lemma nearestGate_None (layers : list ReadRepo) :
  nearestGate layers = None <->
  forall layer, layer ∈ layers -> as_Repo layer = None.
Proof.
  induction layers as [|layer inner IH]; simpl.
  - split; [|reflexivity]. intros _ layer H. now apply elem_of_nil in H.
  - destruct (as_Repo layer) as [r|] eqn:Hl.
    + split; [discriminate|]. intros H.
      rewrite (H layer) in Hl; [discriminate|apply list_elem_of_here].
    + rewrite IH. split.
      * intros H layer' Hin. apply elem_of_cons in Hin as [->|Hin]; auto.
      * intros H layer' Hin. apply H. now apply list_elem_of_further.
Qed.

Scheme ReadRepo_chain_ind := Induction for ReadRepo Sort Prop
  with Repo_chain_ind := Induction for Repo Sort Prop.

Lemma Repository_nearestGate (repo : ReadRepo) :
  Repository repo = nearestGate (chain repo).
Proof.
  induction repo using ReadRepo_chain_ind
    with (P0 := fun r => Repository (ReadWriteRepo r)
                         = nearestGate (chain (ReadWriteRepo r))).
  - reflexivity.
  - destruct r as [inner]. reflexivity.
  - simpl. exact IHrepo.
  - simpl. exact IHrepo.
Qed.

(** The k-th element of the chain is reached by k [Parent] links. *)
Lemma chain_lookup (k : nat) :
  forall (repo layer : ReadRepo),
    chain repo !! k = Some layer ->
    layer = Nat.iter k Parent repo /\ layer <> nilRepo.
Proof.
  induction k as [|k IH]; intros repo layer.
  - destruct repo as [|[inner]|name parent]; simpl; [discriminate| |];
      intros H; injection H as <-; split; congruence.
  - destruct repo as [|[inner]|name parent]; [discriminate| |];
      rewrite chain_Parent by discriminate; cbn [lookup list_lookup];
      intros H; apply IH in H; rewrite Nat.iter_succ_r; exact H.
Qed.

(** C7 (chain walker): on every chain, of whatever depth, [Repository]
    returns the version repository nearest to the given one along the [Parent]
    links (the first one in the chain, none before it), returns none exactly
    when no repository of the chain is a version repository, in particular
    for nil, and, being a structural recursion on the chain, ends at the
    root. *)
Theorem Repository_nearest (repo : ReadRepo) :
  Repository repo = nearestGate (chain repo)
  /\ (forall k layer, chain repo !! k = Some layer ->
        layer = Nat.iter k Parent repo /\ layer <> nilRepo)
  /\ (forall g,
        Repository repo = Some g <->
        exists k, chain repo !! k = Some (ptrRepo g)
                  /\ forall j layer, (j < k)%nat ->
                       chain repo !! j = Some layer -> as_Repo layer = None)
  /\ (Repository repo = None <->
      forall layer, layer ∈ chain repo -> as_Repo layer = None)
  /\ Repository nilRepo = None.
Proof.
  split; [apply Repository_nearestGate|].
  split; [intros k layer; apply chain_lookup|].
  split; [|split; [|reflexivity]].
  - intros g. rewrite Repository_nearestGate. apply nearestGate_Some.
  - rewrite Repository_nearestGate. apply nearestGate_None.
Qed.

(** A chain of depth three with the version repository in the middle, and
    one without any. *)
Example Repository_depth3 :
  let store := otherRepo "memory" nilRepo in
  let gate := NewRepo (otherRepo "cache" store) in
  Repository (otherRepo "tracing" (ptrRepo gate)) = Some gate
  /\ Repository (otherRepo "tracing" (otherRepo "cache" store)) = None
  /\ Repository (ptrRepo (NewRepo (ptrRepo gate)))
     = Some (NewRepo (ptrRepo gate)).
Proof. repeat split. Qed.

End ChainFacts.

(** * Facts on the MongoDB read repository *)

Section MongodbFacts.

Import Mongodb.

Example Find_working :
  Find workingRepo "id-1" = (Some (VersionedModel "guest list" 2), None)
  /\ Find workingRepo "id-2" = (None, Some ErrModelNotFound).
Proof. split; vm_compute; reflexivity. Qed.

(** A factory of another type than the stored document: the object returned
    is the factory's, filled from the document. *)
Example Find_other_factory :
  Find (SetModel workingRepo (fun _ => PlainModel "")) "id-1"
  = (Some (PlainModel "guest list"), None).
Proof. vm_compute. reflexivity. Qed.

(** What decoding keeps: the type of the object decoded into and the text of
    the document; the document itself when it has the object's type. *)
Lemma decode_facts (doc target : Model) :
  sameType (decode doc target) target = true
  /\ payloadOf (decode doc target) = payloadOf doc
  /\ (sameType doc target = true -> decode doc target = doc).
Proof.
  destruct doc, target; simpl; repeat split; congruence.
Qed.

(** C9, as the code has it: when a factory is set and the query succeeds,
    [Find] returns the object the factory made with the document stored for
    the id decoded into it (the stored model itself when it has the factory's
    type); it fails with [ErrModelNotSet] when no factory is set, and with
    [ErrModelNotFound] whenever the query fails, be it that no model is stored
    for the id or that the storage failed otherwise.  No other error leaves
    it. *)
Theorem Mongodb_Find_spec (r : ReadRepository) (id : UUID) :
  match factory r with
  | None => Find r id = (None, Some ErrModelNotSet)
  | Some f =>
      match failure (session r), storedModel r id with
      | None, Some doc =>
          Find r id = (Some (decode doc (f tt)), None)
          /\ sameType (decode doc (f tt)) (f tt) = true
          /\ payloadOf (decode doc (f tt)) = payloadOf doc
          /\ (sameType doc (f tt) = true -> Find r id = (Some doc, None))
      | _, _ => Find r id = (None, Some ErrModelNotFound)
      end
  end
  /\ (snd (Find r id) = Some ErrModelNotFound <->
      factory r <> None
      /\ (storedModel r id = None \/ failure (session r) <> None)).
Proof.
  unfold Find, FindId_One, storedModel, Session_Copy.
  destruct (factory r) as [f|]; simpl.
  - destruct (failure (session r)) as [msg|]; simpl.
    + split; [reflexivity|]. split; [|reflexivity].
      intros _. split; [discriminate|right; discriminate].
    + destruct (stored (session r) (db r) (collection r) id) as [doc|]; simpl.
      * destruct (decode_facts doc (f tt)) as (Hty & Hpay & Hsame).
        split; [|split; [discriminate|]].
        -- split; [reflexivity|]. split; [exact Hty|]. split; [exact Hpay|].
           intros H. now rewrite (Hsame H).
        -- intros [_ [H|H]]; [discriminate|congruence].
      * split; [reflexivity|]. split; [|reflexivity].
        intros _. split; [discriminate|now left].
  - split; [reflexivity|]. split; [discriminate|]. intros [H _]. congruence.
Qed.

(** C9 as stated fails: on a broken session a model is stored for the id and
    still [Find] fails with [ErrModelNotFound], the very error of an absent
    model, so NotFound is not returned "exactly when" no model is stored and
    the storage failure has no error of its own. *)
Lemma Find_broken_session_not_found :
  storedModel brokenRepo "id-1" = Some (VersionedModel "guest list" 2)
  /\ failure (session brokenRepo) = Some "connection reset"
  /\ Find brokenRepo "id-1" = (None, Some ErrModelNotFound)
  /\ Find brokenRepo "id-1" = Find brokenRepo "id-2"
  /\ ~ (snd (Find brokenRepo "id-1") = Some ErrModelNotFound
        <-> storedModel brokenRepo "id-1" = None).
Proof.
  assert (Hs : storedModel brokenRepo "id-1"
               = Some (VersionedModel "guest list" 2))
    by (vm_compute; reflexivity).
  split; [exact Hs|]. split; [reflexivity|]. split; [reflexivity|].
  split; [reflexivity|].
  intros [H _]. rewrite Hs in H. specialize (H eq_refl). discriminate.
Qed.

End MongodbFacts.

(** * Runs on the concrete world *)

Import Scenario.

(** A retry that succeeds: the model reaches version 3 after 20ms, the first
    attempt sees version 2, the timer of 100ms fires before the deadline at
    500ms and the second attempt returns the model. *)
Example Find_retry_succeeds :
  Find 2 (ctxMinDeadline 3 500) "id" (start growing)
    = Some ((Some (VersionedModel "guest list" 3), None),
            @Version.mkState Scenario.env (mkWorld 102 (timeline growing))
              [EvFind "id"; EvSelect 100; EvFind "id"])
  /\ Find 1 (ctxMinDeadline 3 500) "id" (start growing) = None.
Proof. split; reflexivity. Qed.

(** C1 at work: without a requirement the one call's answer comes back,
    even with no fuel for the loop. *)
Lemma Find_pass_through_witness :
  Find 0 ctxPlain "id" (start growing)
    = Some ((Some (VersionedModel "guest list" 2), None),
            @Version.mkState Scenario.env (mkWorld 1 (timeline growing)) [EvFind "id"]).
Proof.
  exact (proj1 (@Find_pass_through Scenario.env 0 ctxPlain "id" (start growing) I)).
Defined.

(** C2 at work: a model at version 2 asked for at version 3. *)
Lemma findMinVersion_spec_witness :
  fst (Version.findMinVersion (ctxMin 3) "id" 3 (start stuck))
    = (None, Some (RepoError (Some ErrIncorrectModelVersion) "default"))
  /\ snd (Version.findMinVersion (ctxMin 3) "id" 3
            (start stuck))
     = @Version.mkState Scenario.env (mkWorld 1 (timeline stuck)) [EvFind "id"].
Proof.
  destruct (@findMinVersion_spec Scenario.env (ctxMin 3) "id" 3
              (start stuck) (Some (VersionedModel "guest list" 2)) None
              eq_refl) as (_ & _ & _ & Hlow & Hstate).
  split; [|exact Hstate].
  apply (Hlow eq_refl (mkVersionable 2) eq_refl). simpl. lia.
Defined.

(** C3 at work: under a deadline, IncorrectVersion at the first attempt is
    followed by the wait of 100ms and a second call, which finds version 3;
    an error of the store's own comes back at once. *)
Lemma Find_retry_policy_witness :
  Find 2 (ctxMinDeadline 3 500) "id" (start growing)
    = Some ((Some (VersionedModel "guest list" 3), None),
            @Version.mkState Scenario.env (mkWorld 102 (timeline growing))
              [EvFind "id"; EvSelect 100; EvFind "id"])
  /\ (findCalls [] + 2
      <= findCalls [EvFind "id"; EvSelect 100; EvFind "id"])%nat
  /\ Find 1 (ctxMinDeadline 5 500) "id" (start failing)
     = Some ((None, Some (ErrOther "connection reset")),
             @Version.mkState Scenario.env (mkWorld 1 (timeline failing))
               [EvFind "id"]).
Proof.
  destruct (@Find_retry_policy Scenario.env (ctxMinDeadline 3 500) "id" 3
              (start growing))
    as (_ & _ & _ & _ & _ & _ & Hretry).
  { split; [reflexivity|lia]. }
  destruct (Hretry) with (fuel := 1%nat) as [Heq Hcalls].
  { exists "default". right. reflexivity. }
  { discriminate. }
  { reflexivity. }
  destruct (@Find_retry_policy Scenario.env (ctxMinDeadline 5 500) "id" 5
              (start failing))
    as (_ & _ & _ & Hreal & _).
  { split; [reflexivity|lia]. }
  split; [|split].
  - etransitivity; [exact Heq|reflexivity].
  - apply (Hcalls (Some (VersionedModel "guest list" 3), None)
             (@Version.mkState Scenario.env (mkWorld 102 (timeline growing))
                [EvFind "id"; EvSelect 100; EvFind "id"])).
    reflexivity.
  - apply (Hreal None (ErrOther "connection reset") 0%nat eq_refl).
    intros [ns [H | H]]; discriminate H.
Defined.

(** C4 at work: version 2 asked for at version 3 without a deadline. *)
Lemma Find_no_deadline_witness :
  Find 1 (ctxMin 3) "id" (start growing)
    = Some ((None, Some (RepoError (Some ErrIncorrectModelVersion) "default")),
            @Version.mkState Scenario.env (mkWorld 1 (timeline growing)) [EvFind "id"]).
Proof.
  destruct (@Find_no_deadline Scenario.env 0 (ctxMin 3) "id" 3 (start growing))
    as (_ & _ & Hlow & _).
  - split; [reflexivity|lia].
  - reflexivity.
  - apply (Hlow (Some (VersionedModel "guest list" 2)) (mkVersionable 2)
             eq_refl eq_refl).
    simpl. lia.
Defined.

(** C5 at work: a model without version under a deadline. *)
Lemma Find_model_has_no_version_witness :
  Find 1 (ctxMinDeadline 5 500) "id" (start unversioned)
    = Some ((None, Some (RepoError (Some ErrModelHasNoVersion) "default")),
            @Version.mkState Scenario.env (mkWorld 1 (timeline unversioned))
                            [EvFind "id"]).
Proof.
  apply (@Find_model_has_no_version Scenario.env 0 (ctxMinDeadline 5 500) "id" 5 (start unversioned)
           (Some (PlainModel "guest list"))).
  - split; [reflexivity|lia].
  - reflexivity.
  - reflexivity.
Defined.

(** C6 at work: the model stays at version 2, version 5 is asked for with a
    deadline at 500ms, and the time left is what remains until then: [Find]
    ends with [ctx.Err()], right after a call and the [select]. *)
Lemma Find_deadline_cancellation_witness :
  exists why tr d w',
    Find 501 (ctxMinDeadline 5 500) "id" (start stuck)
      = Some ((None, Some (ErrContext why)),
              @Version.mkState Scenario.env w' (tr ++ [EvFind "id"; EvSelect d])).
Proof.
  destruct (@Find_deadline_cancellation Scenario.env (ctxMinDeadline 5 500) "id" 5
              (fun w => timeline w = timeline stuck /\ 0 <= now w)
              (fun w => Z.to_nat (500 - now w)))
    as [_ Hrun].
  - split; [reflexivity|lia].
  - discriminate.
  - apply Hrun; clear Hrun.
    + intros w [Htl Hnow]. right.
      exists (Some (VersionedModel "guest list" 2)), (mkVersionable 2).
      change (answerAt (now w) (timeline w) notFound
                = (Some (VersionedModel "guest list" 2), None)
              /\ Some (mkVersionable 2) = Some (mkVersionable 2)
              /\ 2 < 5).
      rewrite Htl. simpl.
      destruct (Z.leb_spec 0 (now w)); [|lia].
      repeat split; simpl; lia.
    + intros w n w2 [Htl Hnow].
      change (select_After_Done (ctxMinDeadline 5 500) (ForAttempt n)
                (mkWorld (now w + 1) (timeline w)) = (CaseTimeAfter, w2)
              -> (timeline w2 = timeline stuck /\ 0 <= now w2)
                 /\ (Z.to_nat (500 - now w2) < Z.to_nat (500 - now w))%nat).
      unfold select_After_Done; simpl.
      destruct (Z.ltb_spec (now w + 1 + Z.max (ForAttempt n) 0) 500);
        [|discriminate].
      intros Heq. injection Heq as <-. simpl. repeat split; [exact Htl|lia|lia].
    + split; [reflexivity|simpl; lia].
    + simpl. lia.
Defined.

(** C10 at work: the error of the single attempt comes with a nil model. *)
Lemma Find_error_model_nil_witness :
  fst (fst (default ((Some (PlainModel "none"), None), start stuck)
                    (Find 1 (ctxMin 3) "id" (start stuck)))) = None.
Proof.
  apply (@Find_error_model_nil Scenario.env 1 (ctxMin 3) "id" 3 (start stuck)
           (@Version.mkState Scenario.env (mkWorld 1 (timeline stuck)) [EvFind "id"])
           _ (RepoError (Some ErrIncorrectModelVersion) "default")).
  - split; [reflexivity|lia].
  - reflexivity.
Defined.

(** * Facts on the other operations of the MongoDB read repository *)

Section StoreFacts.

Import Mongodb.

Implicit Types (r : ReadRepository) (id : UUID) (model : Model).

Lemma stored_docsOf (sess : Session) (db collection : string) (id : UUID) :
  stored sess db collection id = docsOf sess db collection !! id.
Proof.
  unfold stored, docsOf.
  destruct (documents sess !! (db, collection)); simpl; [reflexivity|].
  now rewrite lookup_empty.
Qed.

Lemma withSession_same r : withSession r (session r) = r.
Proof. now destruct r. Qed.

(** [Find] on a working session with the factory [f]: the factory's object
    filled from the stored document, or NotFound. *)
Lemma Find_healthy r id (f : unit -> Model) :
  factory r = Some f -> failure (session r) = None ->
  Find r id = match storedModel r id with
              | Some doc => (Some (decode doc (f tt)), None)
              | None => (None, Some ErrModelNotFound)
              end.
Proof.
  intros Hf Hh. unfold Find, FindId_One, Session_Copy, storedModel.
  rewrite Hf, Hh.
  now destruct (stored (session r) (db r) (collection r) id).
Qed.

Lemma decode_sameType (doc target : Model) :
  sameType doc target = true -> decode doc target = doc.
Proof. destruct doc, target; simpl; congruence. Qed.

(** What a successful upsert stores. *)
Lemma stored_UpsertId (sess : Session) (db collection : string) (id id' : UUID)
    (model : Model) :
  failure sess = None ->
  stored (fst (UpsertId sess db collection id model)) db collection id'
  = if decide (id = id') then Some model else stored sess db collection id'.
Proof.
  intros Hh. unfold UpsertId. rewrite Hh. simpl.
  rewrite !stored_docsOf. unfold docsOf at 1. simpl.
  rewrite lookup_insert_eq. simpl. apply lookup_insert.
Qed.

(** What a successful removal leaves. *)
Lemma stored_RemoveId (sess : Session) (db collection : string) (id id' : UUID) :
  failure sess = None -> stored sess db collection id <> None ->
  snd (RemoveId sess db collection id) = None
  /\ failure (fst (RemoveId sess db collection id)) = None
  /\ stored (fst (RemoveId sess db collection id)) db collection id'
     = if decide (id = id') then None else stored sess db collection id'.
Proof.
  intros Hh Hst. unfold RemoveId. rewrite Hh.
  destruct (stored sess db collection id) eqn:Hs; [|congruence]. simpl.
  split; [reflexivity|]. split; [reflexivity|].
  rewrite !stored_docsOf. unfold docsOf at 1. simpl.
  rewrite lookup_insert_eq. simpl. apply lookup_delete.
Qed.

(** The repository after a Save on a working session. *)
Lemma Save_healthy r id model :
  failure (session r) = None ->
  snd (Save r id model) = None
  /\ failure (session (fst (Save r id model))) = None
  /\ factory (fst (Save r id model)) = factory r
  /\ forall id', storedModel (fst (Save r id model)) id'
                 = if decide (id = id') then Some model else storedModel r id'.
Proof.
  intros Hh.
  pose proof (fun id' => stored_UpsertId (session r) (db r) (collection r)
                           id id' model Hh) as Hst.
  unfold Save, Session_Copy, storedModel.
  destruct (UpsertId (session r) (db r) (collection r) id model)
    as [sess' err] eqn:Hup.
  unfold UpsertId in Hup. rewrite Hh in Hup. injection Hup as <- <-.
  simpl in *. auto.
Qed.

(** Save on a failing session. *)
Lemma Save_failing r id model :
  failure (session r) <> None ->
  Save r id model = (r, Some ErrCouldNotSaveModel).
Proof.
  intros Hh. unfold Save, UpsertId, Session_Copy.
  destruct (failure (session r)); [|congruence].
  now rewrite withSession_same.
Qed.

(** Save reports an error exactly on a failing session, always as
    [ErrCouldNotSaveModel], and then leaves the repository as it was; on a
    working session the model is stored under the id and the repository keeps
    its session working and its factory. *)
Theorem Save_outcome r id model :
  match failure (session r) with
  | Some _ => Save r id model = (r, Some ErrCouldNotSaveModel)
  | None =>
      snd (Save r id model) = None
      /\ storedModel (fst (Save r id model)) id = Some model
      /\ failure (session (fst (Save r id model))) = None
      /\ factory (fst (Save r id model)) = factory r
  end.
Proof.
  destruct (failure (session r)) as [msg|] eqn:Hh.
  - apply Save_failing. congruence.
  - destruct (Save_healthy r id model Hh) as (Herr & Hh1 & Hf1 & Hst1).
    rewrite Hst1, decide_True by reflexivity. auto.
Qed.

(** Round trip: on a working session with the factory [f] set, Find after
    Save returns the factory's object with the saved model decoded into it,
    which is the saved model itself when the factory makes objects of its
    type; a second Save under the same id replaces the first (an upsert). *)
Theorem Save_Find r id model model' (f : unit -> Model) :
  failure (session r) = None -> factory r = Some f ->
  Find (fst (Save r id model)) id = (Some (decode model (f tt)), None)
  /\ Find (fst (Save (fst (Save r id model)) id model')) id
     = (Some (decode model' (f tt)), None)
  /\ (sameType model (f tt) = true ->
      Find (fst (Save r id model)) id = (Some model, None)).
Proof.
  intros Hh Hf.
  destruct (Save_healthy r id model Hh) as (_ & Hh1 & Hf1 & Hst1).
  destruct (Save_healthy (fst (Save r id model)) id model' Hh1)
    as (_ & Hh2 & Hf2 & Hst2).
  assert (H1 : Find (fst (Save r id model)) id
               = (Some (decode model (f tt)), None)).
  { rewrite (Find_healthy _ _ f) by congruence.
    rewrite Hst1, decide_True by reflexivity. reflexivity. }
  split; [exact H1|]. split.
  - rewrite (Find_healthy _ _ f) by congruence.
    rewrite Hst2, decide_True by reflexivity. reflexivity.
  - intros Hty. now rewrite H1, (decode_sameType _ _ Hty).
Qed.

(** Save touches one id only: Find under any other id answers as before,
    whether the Save succeeded or not. *)
Theorem Save_frame r id id' model :
  id <> id' ->
  Find (fst (Save r id model)) id' = Find r id'.
Proof.
  intros Hne. destruct (failure (session r)) as [msg|] eqn:Hh.
  - rewrite Save_failing; [reflexivity|congruence].
  - destruct (Save_healthy r id model Hh) as (_ & Hh1 & Hf1 & Hst1).
    destruct (factory r) as [f|] eqn:Hf.
    + rewrite !(Find_healthy _ _ f) by congruence.
      now rewrite Hst1, decide_False by exact Hne.
    + unfold Find. now rewrite Hf1, Hf.
Qed.

(** Remove on a failing session, or of an id without a model. *)
Lemma Remove_failing r id :
  failure (session r) <> None \/ storedModel r id = None ->
  Remove r id = (r, Some ErrModelNotFound).
Proof.
  intros H. unfold Remove, RemoveId, Session_Copy, storedModel in *.
  destruct (failure (session r)) as [msg|].
  - now rewrite withSession_same.
  - destruct H as [H|H]; [congruence|]. rewrite H.
    now rewrite withSession_same.
Qed.

(** Remove of a stored model on a working session. *)
Lemma Remove_healthy r id :
  failure (session r) = None -> storedModel r id <> None ->
  snd (Remove r id) = None
  /\ failure (session (fst (Remove r id))) = None
  /\ factory (fst (Remove r id)) = factory r
  /\ forall id', storedModel (fst (Remove r id)) id'
                 = if decide (id = id') then None else storedModel r id'.
Proof.
  intros Hh Hst.
  pose proof (fun id' => stored_RemoveId (session r) (db r) (collection r)
                           id id' Hh Hst) as Hrm.
  unfold Remove, Session_Copy, storedModel.
  destruct (RemoveId (session r) (db r) (collection r) id) as [sess' err].
  simpl in Hrm. destruct (Hrm id) as (-> & Hh' & _). simpl.
  split; [reflexivity|]. split; [exact Hh'|]. split; [reflexivity|].
  intros id'. apply Hrm.
Qed.

(** Remove succeeds exactly when the session works and a model is stored
    under the id; then no model is left under the id and every other id keeps
    its model.  In every other case, the session's failure included, it fails
    with [ErrModelNotFound] and leaves the repository as it was. *)
Theorem Remove_outcome r id :
  match failure (session r), storedModel r id with
  | None, Some _ =>
      snd (Remove r id) = None
      /\ storedModel (fst (Remove r id)) id = None
      /\ forall id', id <> id' ->
           storedModel (fst (Remove r id)) id' = storedModel r id'
  | _, _ => Remove r id = (r, Some ErrModelNotFound)
  end.
Proof.
  destruct (failure (session r)) as [msg|] eqn:Hh.
  - apply Remove_failing. left. congruence.
  - destruct (storedModel r id) as [doc|] eqn:Hst.
    + destruct (Remove_healthy r id Hh) as (Herr & _ & _ & Hrm);
        [congruence|].
      split; [exact Herr|]. split.
      * now rewrite Hrm, decide_True.
      * intros id' Hne. now rewrite Hrm, decide_False.
    + apply Remove_failing. now right.
Qed.

(** Save then Remove: on a working session a model just saved can be
    removed, after which Find under its id fails with NotFound and every id
    but this one holds what it held before the Save. *)
Theorem Save_Remove r id model :
  failure (session r) = None -> factory r <> None ->
  let r' := fst (Remove (fst (Save r id model)) id) in
  snd (Remove (fst (Save r id model)) id) = None
  /\ Find r' id = (None, Some ErrModelNotFound)
  /\ forall id', id <> id' -> Find r' id' = Find r id'.
Proof.
  intros Hh Hf r'. subst r'.
  destruct (Save_healthy r id model Hh) as (_ & Hh1 & Hf1 & Hst1).
  destruct (Remove_healthy (fst (Save r id model)) id Hh1)
    as (Herr & Hh2 & Hf2 & Hst2).
  { rewrite Hst1, decide_True by reflexivity. discriminate. }
  destruct (factory r) as [f|] eqn:Hfr; [|congruence].
  split; [exact Herr|]. split.
  - rewrite (Find_healthy _ _ f) by congruence.
    now rewrite Hst2, decide_True.
  - intros id' Hne. rewrite !(Find_healthy _ _ f) by congruence.
    rewrite Hst2, decide_False by exact Hne.
    now rewrite Hst1, decide_False by exact Hne.
Qed.

(** The loop appends, in the iterator's order, the objects its documents
    are decoded into: the object at hand for the first, one made by the
    factory for each of the others. *)
Lemma collect_app (f : unit -> Model) (docs : list Model) :
  forall (model : Model) (result : list Model),
    collect f docs model result
    = result ++ match docs with
                | [] => []
                | doc :: docs' =>
                    decode doc model :: ((fun d => decode d (f tt)) <$> docs')
                end.
Proof.
  induction docs as [|doc docs IH]; intros model result; simpl.
  - now rewrite app_nil_r.
  - rewrite IH, <- app_assoc. now destruct docs.
Qed.

Lemma drain_eq (f : unit -> Model) (iter : Iter) :
  drain f iter
  = match iter_err iter with
    | Some e => (None, Some (as_error e))
    | None => (Some ((fun d => decode d (f tt)) <$> pending iter), None)
    end.
Proof.
  unfold drain. rewrite collect_app. now destruct (pending iter).
Qed.

(** FindAll on a working session with the factory [f]. *)
Lemma FindAll_healthy r (f : unit -> Model) :
  factory r = Some f -> failure (session r) = None ->
  FindAll r
  = (Some ((fun d => decode d (f tt))
             <$> (snd <$> map_to_list (docsOf (session r) (db r) (collection r)))),
     None).
Proof.
  intros Hf Hh. unfold FindAll, Collection_Find_nil, Session_Copy. simpl.
  rewrite Hf, Hh. now rewrite drain_eq.
Qed.

(** FindAll on a working session with the factory [f] returns, without
    error, one object per stored id: exactly the factory's objects with the
    documents of the collection decoded into them, each of the factory's type
    (so the stored models themselves when they have that type); for a
    collection without documents that is the empty list, not an error. *)
Theorem FindAll_all r (f : unit -> Model) :
  factory r = Some f -> failure (session r) = None ->
  exists l,
    FindAll r = (Some l, None)
    /\ (forall model,
          model ∈ l <->
          exists id doc, storedModel r id = Some doc
                         /\ model = decode doc (f tt))
    /\ length l = size (docsOf (session r) (db r) (collection r))
    /\ (forall model, model ∈ l -> sameType model (f tt) = true)
    /\ ((forall id, storedModel r id = None) -> l = []).
Proof.
  intros Hf Hh. eexists. split; [exact (FindAll_healthy r f Hf Hh)|].
  assert (Hin : forall model,
    model ∈ (fun d => decode d (f tt))
              <$> (snd <$> map_to_list (docsOf (session r) (db r) (collection r)))
    <-> exists id doc, storedModel r id = Some doc /\ model = decode doc (f tt)).
  { intros model. rewrite list_elem_of_fmap. split.
    - intros (doc & -> & Hdoc). apply list_elem_of_fmap in Hdoc
        as ([id doc'] & -> & Hin). exists id, doc'.
      apply elem_of_map_to_list in Hin. unfold storedModel.
      now rewrite stored_docsOf.
    - intros (id & doc & Hst & ->). exists doc. split; [reflexivity|].
      apply list_elem_of_fmap. exists (id, doc). split; [reflexivity|].
      apply elem_of_map_to_list. unfold storedModel in Hst.
      now rewrite stored_docsOf in Hst. }
  split; [exact Hin|]. split; [|split].
  - now rewrite !length_fmap, length_map_to_list.
  - intros model Hm. apply Hin in Hm as (id & doc & _ & ->).
    now destruct doc, (f tt).
  - intros Hnone.
    assert (docsOf (session r) (db r) (collection r) = ∅) as ->.
    { apply map_eq. intros id. rewrite lookup_empty, <- stored_docsOf.
      apply Hnone. }
    now rewrite map_to_list_empty.
Qed.

(** The errors of FindAll: [ErrModelNotSet] without a factory; with one, the
    failure of the session comes out as the driver reported it, where Find
    answers [ErrModelNotFound]; no model comes with an error. *)
Theorem FindAll_errors r :
  (factory r = None -> FindAll r = (None, Some ErrModelNotSet))
  /\ (forall msg, factory r <> None -> failure (session r) = Some msg ->
        FindAll r = (None, Some (ErrOther msg))
        /\ forall id, Find r id = (None, Some ErrModelNotFound))
  /\ (snd (FindAll r) <> None -> fst (FindAll r) = None)
  /\ snd (FindAll r) <> Some ErrModelNotFound.
Proof.
  unfold FindAll, Find, FindId_One, Collection_Find_nil, Session_Copy. simpl.
  destruct (factory r) as [f|]; simpl.
  - destruct (failure (session r)) as [msg|]; rewrite drain_eq; simpl;
      repeat split; congruence.
  - repeat split; congruence.
Qed.

(** An id Find answers for is among the models FindAll returns. *)
Theorem Find_in_FindAll r id model :
  Find r id = (Some model, None) ->
  exists l, FindAll r = (Some l, None) /\ model ∈ l.
Proof.
  intros Hfind.
  destruct (factory r) as [f|] eqn:Hf;
    [|unfold Find in Hfind; rewrite Hf in Hfind; discriminate].
  assert (Hh : failure (session r) = None).
  { destruct (failure (session r)) eqn:Hh; [|reflexivity].
    unfold Find, FindId_One, Session_Copy in Hfind.
    rewrite Hf, Hh in Hfind. discriminate. }
  rewrite (Find_healthy _ _ f) in Hfind by assumption.
  eexists. split; [now apply (FindAll_healthy _ f)|].
  unfold storedModel in Hfind.
  destruct (stored (session r) (db r) (collection r) id) as [doc|] eqn:Hst;
    [|discriminate].
  injection Hfind as <-.
  apply list_elem_of_fmap. exists doc. split; [reflexivity|].
  apply list_elem_of_fmap. exists (id, doc). split; [reflexivity|].
  apply elem_of_map_to_list. now rewrite <- stored_docsOf.
Qed.

(** FindCustom hands the callback the repository's collection and returns,
    in the order of the query's iterator, the factory's objects with the
    documents it yields decoded into them; when the iterator closes with an
    error that error is returned with a nil slice, whatever was read before;
    without a factory the callback is not consulted.  FindAll is FindCustom
    with the query for every document. *)
Theorem FindCustom_outcome r (callback : Collection -> Query) :
  let iter :=
    Query_Iter (callback (mkCollection (session r) (db r) (collection r))) in
  FindCustom r callback
  = match factory r, iter_err iter with
    | None, _ => (None, Some ErrModelNotSet)
    | Some _, Some e => (None, Some (as_error e))
    | Some f, None =>
        (Some ((fun doc => decode doc (f tt)) <$> pending iter), None)
    end
  /\ FindAll r = FindCustom r Collection_Find_nil.
Proof.
  unfold FindCustom, FindAll, Session_Copy. split.
  - destruct (factory r); [|reflexivity]. now rewrite drain_eq.
  - reflexivity.
Qed.

(** Clear fails only with the package's [ErrCouldNotClearDB] (here [E]), as
    it does on a failing session, and then leaves the repository as it was;
    when it succeeds no id of the collection holds a model any more, FindAll
    returns the empty list, and the other collections keep their
    documents. *)
Theorem Clear_outcome (E : error) r :
  (snd (Clear E r) = None \/ Clear E r = (r, Some E))
  /\ (failure (session r) <> None -> Clear E r = (r, Some E))
  /\ (snd (Clear E r) = None ->
      (forall id, storedModel (fst (Clear E r)) id = None)
      /\ (factory r <> None -> FindAll (fst (Clear E r)) = (Some [], None))
      /\ (forall db' c' id, (db', c') <> (db r, collection r) ->
            stored (session (fst (Clear E r))) db' c' id
            = stored (session r) db' c' id)).
Proof.
  unfold Clear, DropCollection.
  destruct (failure (session r)) as [msg|] eqn:Hh; simpl.
  - rewrite withSession_same. split; [now right|]. split; [reflexivity|].
    discriminate.
  - destruct (documents (session r) !! (db r, collection r)) as [docs|] eqn:Hd;
      simpl.
    + split; [now left|]. split; [congruence|]. intros _.
      assert (Hnone : forall id,
        storedModel (withSession r
          (mkSession (delete (db r, collection r) (documents (session r))) None))
          id = None).
      { intros id. unfold storedModel, stored. simpl.
        now rewrite lookup_delete_eq. }
      split; [exact Hnone|]. split.
      * intros Hf. destruct (factory r) as [f|] eqn:Hfr; [|congruence].
        rewrite (FindAll_healthy _ f) by (simpl; auto).
        unfold docsOf. simpl. rewrite lookup_delete_eq. simpl.
        now rewrite map_to_list_empty.
      * intros db' c' id Hne. unfold stored. simpl.
        now rewrite lookup_delete_ne by congruence.
    + rewrite withSession_same. split; [now right|]. split; [congruence|].
      discriminate.
Qed.

(** A repository made by NewReadRepositoryWithSession has no factory: it
    can be written at once, but Find and FindAll fail with [ErrModelNotSet]
    until SetModel is called, after which Find returns the factory's object
    with what was saved decoded into it, the saved model itself when the
    factory makes objects of its type.  A nil session gives no repository and
    the package's [ErrNoDBSession] (here [E]). *)
Theorem NewReadRepositoryWithSession_fresh (E : error) (sess : Session)
    (database collection : string) :
  NewReadRepositoryWithSession E None database collection = (None, Some E)
  /\ exists r,
       NewReadRepositoryWithSession E (Some sess) database collection
         = (Some r, None)
       /\ (forall id, Find r id = (None, Some ErrModelNotSet))
       /\ FindAll r = (None, Some ErrModelNotSet)
       /\ (failure sess = None ->
           forall id model f,
             snd (Save r id model) = None
             /\ Find (fst (Save r id model)) id = (None, Some ErrModelNotSet)
             /\ Find (SetModel (fst (Save r id model)) f) id
                = (Some (decode model (f tt)), None)
             /\ (sameType model (f tt) = true ->
                 Find (SetModel (fst (Save r id model)) f) id
                 = (Some model, None))).
Proof.
  split; [reflexivity|]. eexists. split; [reflexivity|].
  split; [reflexivity|]. split; [reflexivity|].
  intros Hh id model f.
  set (r := mkReadRepository sess database collection None).
  destruct (Save_healthy r id model Hh) as (Herr & Hh1 & Hf1 & Hst1).
  assert (Hfind : Find (SetModel (fst (Save r id model)) f) id
                  = (Some (decode model (f tt)), None)).
  { rewrite (Find_healthy _ _ f) by (simpl; auto).
    change (storedModel (SetModel (fst (Save r id model)) f) id)
      with (storedModel (fst (Save r id model)) id).
    now rewrite Hst1, decide_True. }
  split; [exact Herr|]. split; [|split].
  - unfold Find. now rewrite Hf1.
  - exact Hfind.
  - intros Hty. now rewrite Hfind, (decode_sameType _ _ Hty).
Qed.

(** Databases are kept apart: what Save stores in the repository's
    database is not seen after SetDB to another one, where Find answers as if
    the Save had not been made; and SetDB back restores the repository. *)
Theorem SetDB_isolation r id id' model (db' : string) :
  db' <> db r ->
  Find (SetDB (fst (Save r id model)) db') id' = Find (SetDB r db') id'
  /\ SetDB (SetDB r db') (db r) = r.
Proof.
  intros Hne. split; [|now destruct r].
  destruct (failure (session r)) as [msg|] eqn:Hh.
  - rewrite Save_failing; [reflexivity|congruence].
  - unfold Save, UpsertId, Session_Copy. rewrite Hh. simpl.
    unfold Find, FindId_One, Session_Copy, SetDB, withSession. simpl.
    destruct (factory r); [|reflexivity]. rewrite Hh.
    unfold stored. simpl.
    rewrite lookup_insert_ne by congruence. reflexivity.
Qed.

End StoreFacts.

(** * Runs of the version middleware *)

Section GateRunFacts.

Import Version.

Context {env : Env}.

Lemma trace_passState (ctx : Context) (id : UUID) (n : nat) :
  forall (a : nat) (s : State),
    trace (passState ctx id a n s) = trace s ++ schedule id a n.
Proof.
  induction n as [|n IH]; intros a s; simpl.
  - now rewrite app_nil_r.
  - rewrite IH. unfold afterSelect, afterFind. simpl.
    now rewrite <- !app_assoc.
Qed.

Lemma schedule_S_end (id : UUID) (n : nat) :
  forall a, schedule id a (S n)
            = schedule id a n ++ [EvFind id; EvSelect (ForAttempt (a + n))].
Proof.
  induction n as [|n IH]; intros a.
  - simpl. now rewrite Nat.add_0_r.
  - change (schedule id a (S (S n)))
      with (EvFind id :: EvSelect (ForAttempt a) :: schedule id (S a) (S n)).
    rewrite IH. simpl. now rewrite Nat.add_succ_r.
Qed.

Lemma findCalls_schedule (id : UUID) (n : nat) :
  forall a, findCalls (schedule id a n) = n.
Proof.
  induction n as [|n IH]; intros a; [reflexivity|].
  change (S (findCalls (schedule id (S a) n)) = S n). now rewrite IH.
Qed.

(** A step that succeeds hands on the wrapped repository's answer, which has
    a version, and one that suffices. *)
Lemma findMinVersion_ok_inv (ctx : Context) (id : UUID) (M : Z) (s : State)
    (model : option Model) :
  fst (findMinVersion ctx id M s) = (model, None) ->
  fst (ReadWriteRepo_Find ctx id (world s)) = (model, None)
  /\ exists vb, as_Versionable model = Some vb /\ M <= AggregateVersion vb.
Proof.
  destruct (fst (ReadWriteRepo_Find ctx id (world s))) as [m [e|]] eqn:Hw.
  - rewrite (findMinVersion_error _ _ _ _ _ _ Hw). discriminate.
  - destruct (as_Versionable m) as [vb|] eqn:Hv.
    + destruct (Z.lt_ge_cases (AggregateVersion vb) M) as [Hlt|Hle].
      * rewrite (findMinVersion_too_low _ _ _ _ _ _ Hw Hv Hlt). discriminate.
      * rewrite (findMinVersion_ok _ _ _ _ _ _ Hw Hv Hle).
        intros H. injection H as <-. split; [reflexivity|]. now exists vb.
    + rewrite (findMinVersion_no_version _ _ _ _ _ Hw Hv). discriminate.
Qed.

(** Every run of the loop that returns: after some passes that ended with
    the timer (none without a deadline), either the step's result is returned
    right after its call, and that is no retry condition unless there is no
    deadline, or under a deadline the [select] after a retry condition took
    [ctx.Done()]. *)
Lemma for_loop_run (ctx : Context) (id : UUID) (M : Z) (hasDeadline : bool)
    (after : Eff FindResult) (fuel : nat) :
  forall (delay : Backoff) (s s' : State) (res : FindResult),
    for_loop fuel (Find_body ctx id M hasDeadline) delay after s
      = Some (res, s') ->
    exists n, (n < fuel)%nat /\ (n <> 0%nat -> hasDeadline = true) /\
      let sn := passState ctx id (attempt delay) n s in
      (res = fst (findMinVersion ctx id M sn)
       /\ s' = afterFind ctx id sn
       /\ (retryCondition (snd res) -> hasDeadline = false))
      \/ (hasDeadline = true
          /\ retryCondition (snd (fst (findMinVersion ctx id M sn)))
          /\ exists why,
               res = (None, ctx_Err why)
               /\ s' = afterSelect ctx (ForAttempt (attempt delay + n))
                                   (afterFind ctx id sn)).
Proof.
  induction fuel as [|fuel IH]; intros delay s s' res; simpl; [discriminate|].
  rewrite Find_body_eq. cbv zeta.
  pose proof (findMinVersion_error_nil ctx id M s) as Hnil.
  destruct (isRetry (snd (fst (findMinVersion ctx id M s)))) eqn:Hr.
  - pose proof (proj1 (isRetry_spec _) Hr) as Hc.
    destruct hasDeadline.
    + destruct (fst (select_After_Done ctx _ _)) as [|why] eqn:Hsel.
      * intros Hrun. apply IH in Hrun as (n & Hn & _ & Hcases).
        exists (S n). split; [lia|]. split; [reflexivity|].
        cbn [attempt passState] in *.
        now rewrite Nat.add_succ_r.
      * intros H. injection H as <- <-. exists 0%nat.
        split; [lia|]. split; [congruence|]. right.
        split; [reflexivity|]. split; [exact Hc|]. exists why.
        cbn [passState]. now rewrite Nat.add_0_r.
    + intros H. injection H as <- <-. exists 0%nat.
      split; [lia|]. split; [congruence|]. left. cbn [passState]. auto.
  - assert (Hnot : ~ retryCondition (snd (fst (findMinVersion ctx id M s)))).
    { intros Hc. apply isRetry_spec in Hc. congruence. }
    destruct (fst (findMinVersion ctx id M s)) as [model [e|]] eqn:Hstep;
      cbn [snd] in *; intros H; injection H as <- <-; exists 0%nat;
      (split; [lia|]); (split; [congruence|]); left; cbn [passState];
      rewrite Hstep.
    + rewrite (Hnil model e eq_refl). cbn [snd]. split; [reflexivity|].
      split; [reflexivity|]. intros Hc. contradiction.
    + split; [reflexivity|]. split; [reflexivity|]. cbn [snd].
      intros Hc. contradiction.
Qed.

(** Unfolding of [Find] without a requirement. *)
Lemma Find_noRequirement (fuel : nat) (ctx : Context) (id : UUID) (s : State) :
  noRequirement ctx ->
  Find fuel ctx id s
  = Some (fst (ReadWriteRepo_Find ctx id (world s)), afterFind ctx id s).
Proof.
  intros Hno. unfold Find, MinVersionFromContext. unfold noRequirement in Hno.
  destruct (ctx_minVersion ctx) as [v|]; simpl.
  - destruct (Z.ltb_spec v 1); [|lia]. now rewrite call_Find_eq.
  - now rewrite call_Find_eq.
Qed.

Lemma requires_or_not (ctx : Context) :
  noRequirement ctx \/ exists M, requires ctx M.
Proof.
  unfold noRequirement, requires. destruct (ctx_minVersion ctx) as [v|].
  - destruct (Z.lt_ge_cases v 1); [now left|right; exists v; split; [auto|lia]].
  - now left.
Qed.

(** What a run of [Find] does, for every context: it calls the wrapped Find
    for its own id only and waits between any two calls, the n-th wait of the
    call being for [ForAttempt n], counted from 0; it returns right after a
    call, or, with [ctx.Err()] and only under a deadline, right after a wait;
    and without a deadline its whole trace is its one call: it never
    waits. *)
Theorem Find_trace (fuel : nat) (ctx : Context) (id : UUID) (s s' : State)
    (res : FindResult) :
  Find fuel ctx id s = Some (res, s') ->
  exists n,
    (ctx_deadline ctx = None -> n = 0%nat)
    /\ findCalls (trace s') = (findCalls (trace s) + S n)%nat
    /\ (trace s' = trace s ++ schedule id 0 n ++ [EvFind id]
        \/ (ctx_deadline ctx <> None
            /\ trace s' = trace s ++ schedule id 0 (S n)
            /\ exists why, res = (None, ctx_Err why)))
    /\ (ctx_deadline ctx = None -> trace s' = trace s ++ [EvFind id]).
Proof.
  destruct (requires_or_not ctx) as [Hno | [M Hreq]].
  - rewrite (Find_noRequirement _ _ _ _ Hno). intros H. injection H as <- <-.
    exists 0%nat. split; [reflexivity|].
    split; [rewrite findCalls_afterFind; lia|]. split; [now left|reflexivity].
  - rewrite (Find_requires _ _ _ _ _ Hreq). unfold Find_loop. intros Hrun.
    apply for_loop_run in Hrun as (n & _ & Hdl & Hcases).
    cbn [attempt] in Hcases.
    assert (Hzero : ctx_deadline ctx = None -> n = 0%nat).
    { intros Hnone. destruct n; [reflexivity|].
      unfold Deadline in Hdl. rewrite Hnone in Hdl.
      specialize (Hdl ltac:(discriminate)). discriminate. }
    exists n. split; [exact Hzero|].
    destruct Hcases as [(_ & -> & _) | (Hd & _ & why & -> & ->)].
    + assert (Htr : trace (afterFind ctx id (passState ctx id 0 n s))
                    = trace s ++ schedule id 0 n ++ [EvFind id]).
      { unfold afterFind; simpl. rewrite trace_passState.
        now rewrite <- app_assoc. }
      split; [|split].
      * rewrite findCalls_afterFind, trace_passState, findCalls_app,
          findCalls_schedule. lia.
      * now left.
      * intros Hnone. rewrite Htr, (Hzero Hnone). reflexivity.
    + apply Deadline_present in Hd. split; [|split].
      * rewrite findCalls_afterSelect, findCalls_afterFind, trace_passState,
          findCalls_app, findCalls_schedule. lia.
      * right. split; [exact Hd|]. split; [|now exists why].
        unfold afterSelect, afterFind; cbn [trace]. rewrite trace_passState.
        rewrite schedule_S_end, <- !app_assoc. reflexivity.
      * intros Hnone. contradiction.
Qed.

(** Under a requirement [M >= 1], a model that [Find] returns without error
    is the wrapped repository's answer to the last call, it is Versionable and
    its version is at least [M]: no stale model and no model without version
    gets through. *)
Theorem Find_success_version (fuel : nat) (ctx : Context) (id : UUID) (M : Z)
    (s s' : State) (model : option Model) :
  requires ctx M ->
  Find fuel ctx id s = Some ((model, None), s') ->
  (exists vb, as_Versionable model = Some vb /\ M <= AggregateVersion vb)
  /\ exists s0, fst (ReadWriteRepo_Find ctx id (world s0)) = (model, None)
                /\ s' = afterFind ctx id s0.
Proof.
  intros Hreq. rewrite (Find_requires _ _ _ _ _ Hreq). unfold Find_loop.
  intros Hrun. apply for_loop_run in Hrun as (n & _ & _ & Hcases).
  destruct Hcases as [(Hres & -> & _) | (_ & _ & why & Hres & _)];
    [|discriminate].
  symmetry in Hres. apply findMinVersion_ok_inv in Hres as [Hw Hv].
  split; [exact Hv|]. eexists. split; [exact Hw|reflexivity].
Qed.

(** Under a requirement [M >= 1] and a deadline, [Find] never returns the
    NotFound or IncorrectVersion condition of the step: what it returns is
    the model, [ctx.Err()], or an error outside the retry conditions. *)
Theorem Find_deadline_no_retry_error (fuel : nat) (ctx : Context) (id : UUID)
    (M : Z) (s s' : State) (res : FindResult) :
  requires ctx M -> ctx_deadline ctx <> None ->
  Find fuel ctx id s = Some (res, s') ->
  ~ retryCondition (snd res).
Proof.
  intros Hreq Hdl. rewrite (Find_requires _ _ _ _ _ Hreq). unfold Find_loop.
  apply Deadline_present in Hdl. rewrite Hdl.
  intros Hrun. apply for_loop_run in Hrun as (n & _ & _ & Hcases).
  destruct Hcases as [(_ & _ & Hno) | (_ & _ & why & -> & _)].
  - intros Hc. specialize (Hno Hc). discriminate.
  - intros [ns [H | H]]; discriminate.
Qed.

(** The loop, entered with the backoff at attempt [a]: after [n] passes with
    a stale answer and the timer first, a sufficient answer is returned. *)
Lemma for_loop_retry_success (ctx : Context) (id : UUID) (M : Z)
    (after : Eff FindResult) (model : option Model) (vb : Versionable)
    (n : nat) :
  forall (a : nat) (s : State),
    (forall k, (k < n)%nat ->
       staleAnswer M (fst (ReadWriteRepo_Find ctx id
                             (world (passState ctx id a k s))))
       /\ fst (select_After_Done ctx (ForAttempt (a + k))
                 (world (afterFind ctx id (passState ctx id a k s))))
          = CaseTimeAfter) ->
    fst (ReadWriteRepo_Find ctx id (world (passState ctx id a n s)))
      = (model, None) ->
    as_Versionable model = Some vb -> M <= AggregateVersion vb ->
    forall fuel, (n < fuel)%nat ->
      for_loop fuel (Find_body ctx id M true) (mkBackoff a) after s
      = Some ((model, None), afterFind ctx id (passState ctx id a n s)).
Proof.
  induction n as [|n IH]; intros a s Hstale Hw Hv Hle [|fuel] Hfuel; try lia;
    simpl; rewrite Find_body_eq; cbv zeta.
  - cbn [passState] in Hw.
    now rewrite (findMinVersion_ok _ _ _ _ _ _ Hw Hv Hle).
  - destruct (Hstale 0%nat ltac:(lia)) as [Hst Hsel].
    cbn [passState] in Hst, Hsel. rewrite Nat.add_0_r in Hsel.
    apply staleAnswer_retry in Hst. apply isRetry_spec in Hst.
    rewrite Hst. cbn [attempt]. rewrite Hsel.
    apply IH; [|exact Hw|exact Hv|exact Hle|lia].
    intros k Hk. specialize (Hstale (S k) ltac:(lia)).
    cbn [passState] in Hstale. now rewrite Nat.add_succ_r in Hstale.
Qed.

(** Retry until fresh: under a requirement [M >= 1] and a deadline, if the
    wrapped repository answers below [M] (or NotFound) in the first [n]
    passes, each followed by the timer firing before the context is done, and
    then answers with a model at version [M] or more, [Find] returns that model
    without error after [n + 1] calls, given fuel for them. *)
Theorem Find_retry_success (ctx : Context) (id : UUID) (M : Z) (s : State)
    (model : option Model) (vb : Versionable) (n fuel : nat) :
  requires ctx M -> ctx_deadline ctx <> None ->
  (forall k, (k < n)%nat ->
     staleAnswer M (fst (ReadWriteRepo_Find ctx id
                           (world (passState ctx id 0 k s))))
     /\ fst (select_After_Done ctx (ForAttempt k)
               (world (afterFind ctx id (passState ctx id 0 k s))))
        = CaseTimeAfter) ->
  fst (ReadWriteRepo_Find ctx id (world (passState ctx id 0 n s)))
    = (model, None) ->
  as_Versionable model = Some vb -> M <= AggregateVersion vb ->
  (n < fuel)%nat ->
  Find fuel ctx id s
    = Some ((model, None), afterFind ctx id (passState ctx id 0 n s))
  /\ findCalls (trace (afterFind ctx id (passState ctx id 0 n s)))
     = (findCalls (trace s) + S n)%nat.
Proof.
  intros Hreq Hdl Hstale Hw Hv Hle Hfuel. split.
  - rewrite (Find_requires _ _ _ _ _ Hreq). unfold Find_loop.
    apply Deadline_present in Hdl. rewrite Hdl.
    now apply (for_loop_retry_success ctx id M _ model vb n 0%nat s).
  - rewrite findCalls_afterFind, trace_passState, findCalls_app,
      findCalls_schedule. lia.
Qed.

(** A model that is fresh enough costs one call: under a requirement
    [M >= 1], with or without a deadline, if the wrapped repository's first
    answer is a model at version [M] or more, [Find] returns that answer after
    the single call, without any wait, as it would without a requirement. *)
Theorem Find_fresh_first_attempt (fuel : nat) (ctx : Context) (id : UUID)
    (M : Z) (s : State) (model : option Model) (vb : Versionable) :
  requires ctx M ->
  fst (ReadWriteRepo_Find ctx id (world s)) = (model, None) ->
  as_Versionable model = Some vb -> M <= AggregateVersion vb ->
  Find (S fuel) ctx id s = Some ((model, None), afterFind ctx id s)
  /\ trace (afterFind ctx id s) = trace s ++ [EvFind id].
Proof.
  intros Hreq Hw Hv Hle. split; [|reflexivity].
  rewrite (Find_requires _ _ _ _ _ Hreq), Find_loop_S, Find_body_eq. cbv zeta.
  now rewrite (findMinVersion_ok _ _ _ _ _ _ Hw Hv Hle).
Qed.

End GateRunFacts.

(** * Decorators around the version repository *)

Section DecoratorFacts.

Import Version.

(** Other decorators are transparent to the walker, however many there are:
    through a stack of them it finds what it finds below, so a version
    repository made by NewRepo around any chain [inner] is found from the top
    of the stack, version repositories further in are not reached, and its
    Parent is [inner]. *)
Theorem Repository_through_decorators (names : list string)
    (repo inner : ReadRepo) :
  Repository (decorate names repo) = Repository repo
  /\ Repository (decorate names (ptrRepo (NewRepo inner))) = Some (NewRepo inner)
  /\ Parent (ptrRepo (NewRepo inner)) = inner
  /\ length (chain (decorate names repo))
     = (length names + length (chain repo))%nat.
Proof.
  assert (H : forall r, Repository (decorate names r) = Repository r).
  { intros r. induction names as [|name names IH]; [reflexivity|exact IH]. }
  split; [apply H|]. split; [now rewrite H|]. split; [reflexivity|].
  induction names as [|name names IH]; [reflexivity|].
  simpl. f_equal. apply IH. intros r. apply (H r).
Qed.

End DecoratorFacts.

(** * Further runs on the concrete world and on the working repository *)

(** The retry that succeeds, read as a trace: one wait of 100ms between the
    two calls. *)
Lemma Find_trace_witness :
  exists n,
    (ctx_deadline (ctxMinDeadline 3 500) = None -> n = 0%nat)
    /\ findCalls [EvFind "id"; EvSelect 100; EvFind "id"]
       = (findCalls [] + S n)%nat
    /\ ([EvFind "id"; EvSelect 100; EvFind "id"]
        = [] ++ Version.schedule "id" 0 n ++ [EvFind "id"]
        \/ (ctx_deadline (ctxMinDeadline 3 500) <> None
            /\ [EvFind "id"; EvSelect 100; EvFind "id"]
               = [] ++ Version.schedule "id" 0 (S n)
            /\ exists why,
                 (Some (VersionedModel "guest list" 3), None)
                 = (None, Version.ctx_Err why)))
    /\ (ctx_deadline (ctxMinDeadline 3 500) = None ->
        [EvFind "id"; EvSelect 100; EvFind "id"] = [] ++ [EvFind "id"]).
Proof.
  exact (@Find_trace Scenario.env 2 (ctxMinDeadline 3 500) "id" (start growing)
           (@Version.mkState Scenario.env (mkWorld 102 (timeline growing))
              [EvFind "id"; EvSelect 100; EvFind "id"])
           (Some (VersionedModel "guest list" 3), None) eq_refl).
Defined.

(** The model the retry returns has the version asked for. *)
Lemma Find_success_version_witness :
  (exists vb, as_Versionable (Some (VersionedModel "guest list" 3)) = Some vb
              /\ 3 <= AggregateVersion vb)
  /\ exists s0,
       fst (store_Find (ctxMinDeadline 3 500) "id" (Version.world s0))
         = (Some (VersionedModel "guest list" 3), None)
       /\ @Version.mkState Scenario.env (mkWorld 102 (timeline growing))
            [EvFind "id"; EvSelect 100; EvFind "id"]
          = Version.afterFind (ctxMinDeadline 3 500) "id" s0.
Proof.
  apply (@Find_success_version Scenario.env 2 (ctxMinDeadline 3 500) "id" 3
           (start growing)).
  - split; [reflexivity|lia].
  - reflexivity.
Defined.

(** The store stuck at version 2 under a deadline: the run ends with the
    context's error, not with IncorrectVersion. *)
Lemma Find_deadline_no_retry_error_witness :
  Find 4 (ctxMinDeadline 5 500) "id" (start stuck)
    = Some ((None, Some (ErrContext DeadlineExceeded)),
            @Version.mkState Scenario.env (mkWorld 500 (timeline stuck))
              [EvFind "id"; EvSelect 100; EvFind "id"; EvSelect 200;
               EvFind "id"; EvSelect 400])
  /\ ~ Version.retryCondition (Some (ErrContext DeadlineExceeded)).
Proof.
  split; [reflexivity|].
  apply (@Find_deadline_no_retry_error Scenario.env 4 (ctxMinDeadline 5 500)
           "id" 5 (start stuck)
           (@Version.mkState Scenario.env (mkWorld 500 (timeline stuck))
              [EvFind "id"; EvSelect 100; EvFind "id"; EvSelect 200;
               EvFind "id"; EvSelect 400])
           (None, Some (ErrContext DeadlineExceeded))).
  - split; [reflexivity|lia].
  - discriminate.
  - reflexivity.
Defined.

(** One stale answer, the timer, then version 3. *)
Lemma Find_retry_success_witness :
  Find 2 (ctxMinDeadline 3 500) "id" (start growing)
    = Some ((Some (VersionedModel "guest list" 3), None),
            @Version.mkState Scenario.env (mkWorld 102 (timeline growing))
              [EvFind "id"; EvSelect 100; EvFind "id"]).
Proof.
  apply (@Find_retry_success Scenario.env (ctxMinDeadline 3 500) "id" 3
           (start growing) (Some (VersionedModel "guest list" 3))
           (mkVersionable 3) 1 2).
  - split; [reflexivity|lia].
  - discriminate.
  - intros [|k] Hk; [|lia]. split; [|reflexivity].
    right. exists (Some (VersionedModel "guest list" 2)), (mkVersionable 2).
    split; [reflexivity|]. split; [reflexivity|]. simpl. lia.
  - reflexivity.
  - reflexivity.
  - simpl. lia.
  - lia.
Defined.

(** Save and Find on the working repository, whose factory makes versioned
    models: an invitation saved as a plain model comes back as the factory's
    object at version 0, one saved as a versioned model comes back as it
    is. *)
Lemma Save_Find_witness :
  Mongodb.Find
    (fst (Mongodb.Save Mongodb.workingRepo "id-7" (PlainModel "invitation")))
    "id-7"
  = (Some (VersionedModel "invitation" 0), None)
  /\ Mongodb.Find
       (fst (Mongodb.Save Mongodb.workingRepo "id-7"
               (VersionedModel "invitation" 4)))
       "id-7"
     = (Some (VersionedModel "invitation" 4), None).
Proof.
  split.
  - apply (Save_Find Mongodb.workingRepo "id-7" (PlainModel "invitation")
             (PlainModel "invitation") (fun _ => VersionedModel "" 0));
      reflexivity.
  - apply (Save_Find Mongodb.workingRepo "id-7" (VersionedModel "invitation" 4)
             (PlainModel "invitation") (fun _ => VersionedModel "" 0));
      reflexivity.
Defined.

Lemma Save_frame_witness :
  Mongodb.Find
    (fst (Mongodb.Save Mongodb.workingRepo "id-7" (PlainModel "invitation")))
    "id-1"
  = Mongodb.Find Mongodb.workingRepo "id-1".
Proof.
  apply (Save_frame Mongodb.workingRepo "id-7" "id-1"). discriminate.
Defined.

Lemma Save_Remove_witness :
  snd (Mongodb.Remove
         (fst (Mongodb.Save Mongodb.workingRepo "id-7" (PlainModel "invitation")))
         "id-7") = None
  /\ Mongodb.Find
       (fst (Mongodb.Remove
               (fst (Mongodb.Save Mongodb.workingRepo "id-7"
                       (PlainModel "invitation"))) "id-7")) "id-7"
     = (None, Some ErrModelNotFound).
Proof.
  destruct (Save_Remove Mongodb.workingRepo "id-7" (PlainModel "invitation"))
    as (Herr & Hfind & _).
  - reflexivity.
  - discriminate.
  - split; [exact Herr|exact Hfind].
Defined.

Lemma FindAll_all_witness :
  exists l,
    Mongodb.FindAll (Mongodb.SetModel Mongodb.workingRepo (fun _ => PlainModel ""))
      = (Some l, None)
    /\ (forall model,
          model ∈ l <->
          exists id doc,
            Mongodb.storedModel
              (Mongodb.SetModel Mongodb.workingRepo (fun _ => PlainModel "")) id
              = Some doc
            /\ model = Mongodb.decode doc (PlainModel ""))
    /\ length l = 1%nat
    /\ (forall model, model ∈ l -> Mongodb.sameType model (PlainModel "") = true).
Proof.
  destruct (FindAll_all
              (Mongodb.SetModel Mongodb.workingRepo (fun _ => PlainModel ""))
              (fun _ => PlainModel ""))
    as (l & Hall & Hin & Hlen & Hty & _).
  - reflexivity.
  - reflexivity.
  - exists l. split; [exact Hall|]. split; [exact Hin|].
    split; [|exact Hty]. rewrite Hlen. vm_compute. reflexivity.
Defined.

(** The list FindAll returns under that factory. *)
Example FindAll_other_factory :
  Mongodb.FindAll (Mongodb.SetModel Mongodb.workingRepo (fun _ => PlainModel ""))
  = (Some [PlainModel "guest list"], None).
Proof. vm_compute. reflexivity. Qed.

Lemma Find_in_FindAll_witness :
  exists l,
    Mongodb.FindAll Mongodb.workingRepo = (Some l, None)
    /\ VersionedModel "guest list" 2 ∈ l.
Proof.
  apply (Find_in_FindAll Mongodb.workingRepo "id-1").
  vm_compute. reflexivity.
Defined.

Lemma SetDB_isolation_witness :
  Mongodb.Find
    (Mongodb.SetDB
       (fst (Mongodb.Save Mongodb.workingRepo "id-7" (PlainModel "invitation")))
       "archive") "id-7"
  = Mongodb.Find (Mongodb.SetDB Mongodb.workingRepo "archive") "id-7".
Proof.
  apply (SetDB_isolation Mongodb.workingRepo "id-7" "id-7"
           (PlainModel "invitation") "archive").
  discriminate.
Defined.

(** Version 2 is stored and version 2 is asked for, under a deadline. *)
Lemma Find_fresh_first_attempt_witness :
  Find 1 (ctxMinDeadline 2 500) "id" (start stuck)
    = Some ((Some (VersionedModel "guest list" 2), None),
            @Version.mkState Scenario.env (mkWorld 1 (timeline stuck))
              [EvFind "id"]).
Proof.
  apply (@Find_fresh_first_attempt Scenario.env 0 (ctxMinDeadline 2 500) "id" 2
           (start stuck) (Some (VersionedModel "guest list" 2))
           (mkVersionable 2)).
  - split; [reflexivity|lia].
  - reflexivity.
  - reflexivity.
  - simpl. lia.
Defined.
